(** * nameserver-forward: the DNS transport client and the forwarding middleware

    A shallow embedding of [src/client.js] (UDP exchange with TCP escalation
    on truncation, TCP length-prefix framing) and of [src/index.js] (the
    forwarding middleware that tries a list of servers in order).

    The asynchronous code is modelled by explicit event scripts: every
    callback the runtime may invoke (a datagram, a timer, a socket event) is
    an event, the handlers of the source are step functions, and a run
    returns the log of the effects the code performed together with the way
    the exchange's promise settled. *)

From Stdlib Require Import String.
From Stdlib Require Import ZArith List Bool Lia.
Import ListNotations.
Open Scope Z_scope.

(** ** JavaScript values that reach the client's [options] argument *)

Module Js.

(** A JavaScript Number, as far as [Number.isInteger] distinguishes it. *)
Inductive number : Type :=
| NumInt (z : Z)            (* a finite number with an integral value *)
| NumFrac (below : Z)       (* a finite number strictly between below and below+1 *)
| NumNaN
| NumInf (negative : bool).

Inductive value : Type :=
| Undefined
| Null
| Boolean (b : bool)
| Str (s : string)
| Num (n : number)
| Obj.

(** [Number.isInteger(v)]: true exactly for numbers with an integral
    value; no coercion of other types. *)
Definition Number_isInteger (v : value) : bool :=
  match v with
  | Num (NumInt _) => true
  | _ => false
  end.

End Js.

(** The [options] argument of the client: [null], [undefined], or an object
    whose [timeout] property is read (a missing property reads as
    [undefined]). *)
Inductive Options : Type :=
| OptNull
| OptUndefined
| OptObject (timeout : Js.value).

(** [options.timeout] after [if (options === null || options === undefined)
    options = {}]. *)
Definition options_timeout (options : Options) : Js.value :=
  match options with
  | OptNull | OptUndefined => Js.Undefined
  | OptObject t => t
  end.

(** The numeric value of a number that passed [Number.isInteger]. *)
Definition integer_value (v : Js.value) : Z :=
  match v with
  | Js.Num (Js.NumInt z) => z
  | _ => 0
  end.

(** [const timeout = Number.isInteger(options.timeout) ? options.timeout : 3000] *)
Definition effective_timeout (options : Options) : Z :=
  if Js.Number_isInteger (options_timeout options)
  then integer_value (options_timeout options)
  else 3000.

(** The timeout as the specification words it: the option when it is a
    positive integer, 3000 when it is absent or anything else. *)
Definition spec_timeout (options : Options) : Z :=
  match options_timeout options with
  | Js.Num (Js.NumInt z) => if 0 <? z then z else 3000
  | _ => 3000
  end.

(** ** Buffers *)

Definition byte := Z.
Definition bytes := list byte.
Definition Error := string.

(** [Buffer.from([a, b, ...])]: every array entry is stored modulo 256. *)
Definition Buffer_from (l : list Z) : bytes := map (fun x => Z.land x 255) l.

(** [buf.slice(start, end)] for [0 <= start <= end]; indices past the end
    are clamped, as [firstn] and [skipn] do. *)
Definition slice (start stop : nat) (buf : bytes) : bytes :=
  firstn (stop - start) (skipn start buf).

(** [buf.slice(start)] *)
Definition slice_from (start : nat) (buf : bytes) : bytes := skipn start buf.

(** [buf.readUInt16BE()] at offset 0; the source calls it only when
    [buf.length >= 2]. *)
Definition readUInt16BE (buf : bytes) : Z :=
  match buf with
  | hi :: lo :: _ => hi * 256 + lo
  | _ => 0
  end.

Definition blength (buf : bytes) : Z := Z.of_nat (List.length buf).

(** ** TCP framing *)

(** The two bytes written before the message (client.js line 158):
    [Buffer.from([(length & 0xff00) >> 8, length & 0x00ff])]. *)
Definition length_prefix (len : Z) : bytes :=
  Buffer_from [Z.shiftr (Z.land len 0xff00) 8; Z.land len 0x00ff].

(** What the client writes on the connection: the prefix, then the message. *)
Definition frame (msg : bytes) : bytes := length_prefix (blength msg) ++ msg.

Section Framing.

(** The reassembler only hands byte slices to [Packet.parse]; it is
    generic in what the parser returns. *)
Context {P : Type}.
Variable parse : bytes -> Error + P.

(** [let buffer, packetLength;] of [getTcpSocket]: both start undefined. *)
Record FrameState : Type := mkFrameState {
  buffer : option bytes;
  packetLength : option Z
}.

Definition frame_init : FrameState := mkFrameState None None.

(** The bytes buffered so far; an undefined buffer holds none. *)
Definition buffered (st : FrameState) : bytes :=
  match buffer st with
  | Some b => b
  | None => []
  end.

(** While a frame of a message of length [len] is incomplete,
    [packetLength] is either still undefined or holds [len]. *)
Definition awaiting (len : Z) (st : FrameState) : Prop :=
  packetLength st = None \/ (packetLength st = Some len /\ 0 < len).

(** What one ['data'] callback did besides updating the two variables. *)
Inductive DataResult : Type :=
| NoPacket                       (* returned without a complete frame *)
| Emit (packet : P)              (* socket.emit('packet', packet) *)
| ParseFailed (e : Error).       (* the catch branch: reject(e); socket.end() *)

(** [!packetLength]: true when it is undefined and also when it is 0. *)
Definition packetLength_falsy (pl : option Z) : bool :=
  match pl with
  | None => true
  | Some n => n =? 0
  end.

(** The ['data'] listener of [getTcpSocket] (client.js lines 44-68). *)
Definition on_data (st : FrameState) (b : bytes) : FrameState * DataResult :=
  (* buffer = buffer ? Buffer.concat([buffer, b]) : b;  a Buffer object is
     truthy even when empty *)
  let buf := match buffer st with
             | Some old => old ++ b
             | None => b
             end in
  if packetLength_falsy (packetLength st) && (blength buf <? 2) then
    (* if (buffer.length < 2) return; *)
    (mkFrameState (Some buf) (packetLength st), NoPacket)
  else
    let len := if packetLength_falsy (packetLength st)
               then readUInt16BE buf
               else match packetLength st with Some n => n | None => 0 end in
    if blength buf >=? len + 2 then
      match parse (slice 2 (Z.to_nat (len + 2)) buf) with
      | inr packet =>
          (* buffer = buffer.slice(packetLength); packetLength = undefined; *)
          (mkFrameState (Some (slice_from (Z.to_nat len) buf)) None, Emit packet)
      | inl e =>
          (* the assignments after the throwing call are skipped *)
          (mkFrameState (Some buf) (Some len), ParseFailed e)
      end
    else
      (mkFrameState (Some buf) (Some len), NoPacket).

(** Feeding a sequence of ['data'] chunks; the results of all callbacks in
    order. *)
Fixpoint feed (st : FrameState) (chunks : list bytes) : FrameState * list DataResult :=
  match chunks with
  | [] => (st, [])
  | b :: rest =>
      let '(st1, r) := on_data st b in
      let '(st2, rs) := feed st1 rest in
      (st2, r :: rs)
  end.

(** The packets emitted by a sequence of callbacks. *)
Fixpoint emitted (rs : list DataResult) : list P :=
  match rs with
  | [] => []
  | Emit p :: rest => p :: emitted rest
  | _ :: rest => emitted rest
  end.

End Framing.

Arguments NoPacket {P}.
Arguments Emit {P} packet.
Arguments ParseFailed {P} e.

(** A parser that returns the slice it is given, to observe the framing
    alone. *)
Definition raw_parse (b : bytes) : Error + bytes := inr b.

(** ** DNS messages and the codec *)

(** The fields of a [nameserver-packet] message that the two files read or
    write.  Resource records are opaque to them. *)
Record Packet (RR : Type) : Type := mkPacket {
  id : Z;
  truncated : bool;
  rcode : Z;
  answer : list RR;
  authority : list RR;
  additional : list RR
}.

Arguments mkPacket {RR}.
Arguments id {RR}.
Arguments truncated {RR}.
Arguments rcode {RR}.
Arguments answer {RR}.
Arguments authority {RR}.
Arguments additional {RR}.

(** ** Effects and events of one exchange *)

(** The calls the client makes on the runtime, in program order. *)
Inductive Effect : Type :=
| ELookup (host : string)                            (* dns.lookup(host, cb) *)
| ESerialize                                         (* Packet.serialize(packet) *)
| ESetTimeout (ms : Z)                               (* setTimeout(cb, timeout) *)
| EClearTimeout                                      (* clearTimeout(t) *)
| EUdpCreate (family : Z)                            (* dgram.createSocket('udp' + family, cb) *)
| EUdpSend (data : bytes) (port : Z) (address : string) (* socket.send(data, port, address, cb) *)
| EUdpClose                                          (* socket.close() on the UDP socket *)
| ETcpConnect (port : Z) (host : string)             (* net.createConnection(port, host, cb) *)
| ETcpWrite (data : bytes)                           (* socket.write(data) *)
| ETcpEnd.                                           (* socket.end() on the TCP socket *)

(** The callbacks the runtime invokes during the UDP phase. *)
Inductive UdpEvent : Type :=
| UdpTimer                          (* the setTimeout callback *)
| UdpMessage (data : bytes)         (* the 'message' listener given to createSocket *)
| UdpSendDone (e : option Error).   (* the callback given to socket.send *)

(** The callbacks the runtime invokes on the TCP socket and its timer. *)
Inductive TcpEvent : Type :=
| TcpConnectCb (e : option Error)   (* the callback given to createConnection *)
| TcpError (e : Error)              (* 'error' *)
| TcpClosed                         (* 'closed' *)
| TcpEnded                          (* 'end' *)
| TcpData (b : bytes)               (* 'data' *)
| TcpTimer.                         (* the setTimeout callback of the TCP phase *)

(** What the outside world does during one exchange. *)
Record Env : Type := mkEnv {
  lookup_result : Error + (string * Z);   (* dns.lookup: error, or (address, family) *)
  udp_events : list UdpEvent;
  tcp_events : list TcpEvent
}.

(** How an awaited promise stands when the script of events is used up or a
    listener failed. *)
Inductive Settled (A : Type) : Type :=
| Fulfilled (a : A)      (* resolve(a) *)
| Failed (e : Error)     (* reject(e) *)
| Threw (e : Error)      (* an exception left a listener uncaught *)
| Waiting.               (* not settled by the events given *)

Arguments Fulfilled {A} a.
Arguments Failed {A} e.
Arguments Threw {A}.
Arguments Waiting {A}.

(** The result of running [client]: the effects in program order and the
    state of the promise the async function returned. *)
Record Run (RR : Type) : Type := mkRun {
  effects : list Effect;
  outcome : Settled (Packet RR)
}.

Arguments mkRun {RR}.
Arguments effects {RR}.
Arguments outcome {RR}.

(** ** Synchronous failures of the datagram socket

    Two calls of the UDP promise executor (client.js lines 112 and 121) can
    throw before any callback runs.  They are calls into Node's [dgram]
    module, which is not part of the repository; what is modelled is when
    they throw, and the error is named by its Node error code. *)

(** [dgram.createSocket('udp' + family, ...)]: the only socket types are
    ['udp4'] and ['udp6'], so the call throws unless [family] is 4 or 6
    ([dns.lookup] reports family 0 for an address it cannot classify). *)
Definition createSocket_throws (family : Z) : option Error :=
  if (family =? 4) || (family =? 6) then None
  else Some "ERR_SOCKET_BAD_TYPE"%string.

(** [socket.send(data, port, address, cb)] validates the port before it
    binds or sends: the call throws unless [1 <= port <= 65535]. *)
Definition send_throws (port : Z) : option Error :=
  if (1 <=? port) && (port <=? 65535) then None
  else Some "ERR_SOCKET_BAD_PORT"%string.

(** ** The transport client (client.js) *)

Section Client.

Context {RR : Type}.

(** [Packet.serialize] and [Packet.parse] of the external codec;
    [parse] throws on malformed input. *)
Variable serialize : Packet RR -> bytes.
Variable parse : bytes -> Error + Packet RR.

(** The UDP promise (client.js lines 105-128), once the timer is armed,
    the socket created and the datagram handed to [send] without an
    exception (see [client] for the calls that throw): the callbacks
    run in the order of the script until one settles the promise.  The
    ['message'] listener calls [Packet.parse] outside any [try]; an
    exception it raises is caught nowhere in the file and ends the run as
    an uncaught exception. *)
Fixpoint udp_wait (requestId : Z) (evs : list UdpEvent)
  : Settled (Packet RR) * list Effect :=
  match evs with
  | [] => (Waiting, [])
  | UdpTimer :: _ =>
      (* socket.close(); reject(new Error('Timeout')); *)
      (Failed "Timeout"%string, [EUdpClose])
  | UdpMessage data :: rest =>
      match parse data with
      | inl e => (Threw e, [])
      | inr response =>
          if id response =? requestId
          then (* clearTimeout(t); socket.close(); resolve(response); *)
               (Fulfilled response, [EClearTimeout; EUdpClose])
          else udp_wait requestId rest
      end
  | UdpSendDone (Some e) :: _ =>
      (* clearTimeout(t); socket.close(); reject(e); *)
      (Failed e, [EClearTimeout; EUdpClose])
  | UdpSendDone None :: rest => udp_wait requestId rest
  end.

(** [getTcpSocket] (client.js lines 14-70) after [createConnection]: the
    listeners run until the promise settles.  The result carries the
    reassembly state and the events not yet consumed, which the second
    phase continues with.  A packet emitted here has no listener yet.
    The TCP timer is not armed in this phase. *)
Fixpoint tcp_connect_wait (st : FrameState) (evs : list TcpEvent)
  : Settled (FrameState * list TcpEvent) * list Effect :=
  match evs with
  | [] => (Waiting, [])
  | TcpConnectCb (Some e) :: _ => (Failed e, [])
  | TcpConnectCb None :: rest => (Fulfilled (st, rest), [])
  | TcpError e :: _ =>
      (* reject(e); socket.end(); *)
      (Failed e, [ETcpEnd])
  | TcpClosed :: _ => (Failed "Connection has been closed"%string, [])
  | TcpEnded :: _ => (Failed "Connection has been ended"%string, [])
  | TcpData b :: rest =>
      match on_data parse st b with
      | (_, ParseFailed e) =>
          (* reject(e); socket.end(); *)
          (Failed e, [ETcpEnd])
      | (st', _) => tcp_connect_wait st' rest
      end
  | TcpTimer :: rest => tcp_connect_wait st rest
  end.

(** The TCP promise (client.js lines 139-160) after the timer is armed,
    the ['packet'] listener attached and the query written.  The listeners
    of [getTcpSocket] are still attached, but their [reject] now hits a
    promise that is already resolved and does nothing.
    [socket.removeListener('packet', arguments.callee)]: inside arrow
    functions [arguments] is that of the exported async function, so the
    call names a function that was never a listener and removes nothing. *)
Fixpoint tcp_wait (packetId : Z) (st : FrameState) (evs : list TcpEvent)
  : Settled (Packet RR) * list Effect :=
  match evs with
  | [] => (Waiting, [])
  | TcpTimer :: _ =>
      (* socket.end(); reject(new Error('Timeout')); *)
      (Failed "Timeout"%string, [ETcpEnd])
  | TcpData b :: rest =>
      match on_data parse st b with
      | (st', Emit response) =>
          if id response =? packetId
          then (* clearTimeout(t); removeListener(...); resolve(response); *)
               (Fulfilled response, [EClearTimeout])
          else tcp_wait packetId st' rest
      | (st', ParseFailed _) =>
          (* reject(e) without effect; socket.end(); *)
          let '(o, effs) := tcp_wait packetId st' rest in (o, ETcpEnd :: effs)
      | (st', NoPacket) => tcp_wait packetId st' rest
      end
  | TcpError _ :: rest =>
      (* reject(e) without effect; socket.end(); *)
      let '(o, effs) := tcp_wait packetId st rest in (o, ETcpEnd :: effs)
  | TcpClosed :: rest => tcp_wait packetId st rest
  | TcpEnded :: rest => tcp_wait packetId st rest
  | TcpConnectCb _ :: rest => tcp_wait packetId st rest
  end.

(** [module.exports = async function(host, port, packet, options)].

    The UDP promise executor (lines 105-128) arms the timer, then creates
    the socket, then sends.  An exception thrown by [createSocket] or by
    [send] leaves the executor and rejects the promise at once: the run
    ends there, with the timer still armed, and with no socket in the
    first case and the socket created and open in the second.  (What the
    armed timer does later, after the exchange is over, is not part of the
    run: its callback calls [socket.close()], which closes the socket in
    the second case and fails in the first, where [socket] was never
    initialised.) *)
Definition client (host : string) (port : Z) (packet : Packet RR)
           (options : Options) (env : Env) : Run RR :=
  let timeout := effective_timeout options in
  match lookup_result env with
  | inl e => mkRun [ELookup host] (Failed e)
  | inr (address, family) =>
      let requestId := id packet in
      let serializedPacket := serialize packet in
      match createSocket_throws family with
      | Some e =>
          mkRun [ELookup host; ESerialize; ESetTimeout timeout] (Failed e)
      | None =>
      match send_throws port with
      | Some e =>
          mkRun [ELookup host; ESerialize; ESetTimeout timeout;
                 EUdpCreate family]
                (Failed e)
      | None =>
      let udp_start := [ELookup host; ESerialize; ESetTimeout timeout;
                        EUdpCreate family;
                        EUdpSend serializedPacket port address] in
      match udp_wait requestId (udp_events env) with
      | (Fulfilled response, udp_effs) =>
          if negb (truncated response) then
            mkRun (udp_start ++ udp_effs) (Fulfilled response)
          else
            (* const socket = await getTcpSocket(address, port); *)
            let tcp_start := [ETcpConnect port address] in
            match tcp_connect_wait frame_init (tcp_events env) with
            | (Fulfilled (st, rest), conn_effs) =>
                let buffer := serialize packet in
                let length := blength buffer in
                let tcp_send := [ESetTimeout timeout; ESerialize;
                                 ETcpWrite (length_prefix length);
                                 ETcpWrite buffer] in
                let '(o, tcp_effs) := tcp_wait (id packet) st rest in
                mkRun (udp_start ++ udp_effs ++ tcp_start ++ conn_effs
                                 ++ tcp_send ++ tcp_effs) o
            | (Failed e, conn_effs) =>
                mkRun (udp_start ++ udp_effs ++ tcp_start ++ conn_effs) (Failed e)
            | (Threw e, conn_effs) =>
                mkRun (udp_start ++ udp_effs ++ tcp_start ++ conn_effs) (Threw e)
            | (Waiting, conn_effs) =>
                mkRun (udp_start ++ udp_effs ++ tcp_start ++ conn_effs) Waiting
            end
      | (Failed e, udp_effs) => mkRun (udp_start ++ udp_effs) (Failed e)
      | (Threw e, udp_effs) => mkRun (udp_start ++ udp_effs) (Threw e)
      | (Waiting, udp_effs) => mkRun (udp_start ++ udp_effs) Waiting
      end
      end
      end
  end.

End Client.

(** ** Reading an effect log *)

(** The [(port, host)] of every [net.createConnection] call. *)
Definition tcp_connects (l : list Effect) : list (Z * string) :=
  flat_map (fun e => match e with
                     | ETcpConnect port host => [(port, host)]
                     | _ => []
                     end) l.

(** The [(data, port, address)] of every UDP [send]. *)
Definition udp_sends (l : list Effect) : list (bytes * Z * string) :=
  flat_map (fun e => match e with
                     | EUdpSend data port address => [(data, port, address)]
                     | _ => []
                     end) l.

(** Everything written on the TCP socket, write by write. *)
Definition tcp_writes (l : list Effect) : list bytes :=
  flat_map (fun e => match e with
                     | ETcpWrite data => [data]
                     | _ => []
                     end) l.

(** The delays of every timer armed. *)
Definition timeouts (l : list Effect) : list Z :=
  flat_map (fun e => match e with
                     | ESetTimeout ms => [ms]
                     | _ => []
                     end) l.

Definition count_effect (f : Effect -> bool) (l : list Effect) : nat :=
  List.length (filter f l).

Definition is_serialize (e : Effect) : bool :=
  match e with ESerialize => true | _ => false end.
Definition is_udp_create (e : Effect) : bool :=
  match e with EUdpCreate _ => true | _ => false end.
Definition is_udp_close (e : Effect) : bool :=
  match e with EUdpClose => true | _ => false end.
Definition is_tcp_connect (e : Effect) : bool :=
  match e with ETcpConnect _ _ => true | _ => false end.
Definition is_tcp_end (e : Effect) : bool :=
  match e with ETcpEnd => true | _ => false end.

(** The effects a callback performs when it tears an attempt down. *)
Definition is_teardown (e : Effect) : bool :=
  match e with
  | EClearTimeout | EUdpClose | ETcpEnd => true
  | _ => false
  end.

Definition teardown_only (l : list Effect) : Prop :=
  Forall (fun e => is_teardown e = true) l.

(** The number of [Packet.serialize] calls of a run. *)
Definition serialize_count (l : list Effect) : nat := count_effect is_serialize l.

(** The events by which the peer or the network terminates a connection. *)
Definition is_termination (ev : TcpEvent) : bool :=
  match ev with
  | TcpError _ | TcpClosed | TcpEnded => true
  | _ => false
  end.

(** A TCP connection was opened and, at the end of the log, neither the
    client has called [end] on it nor has any event terminated it. *)
Definition tcp_left_open (l : list Effect) (evs : list TcpEvent) : bool :=
  existsb is_tcp_connect l && negb (existsb is_tcp_end l)
  && negb (existsb is_termination evs).

(** A UDP socket was created and never closed. *)
Definition udp_left_open (l : list Effect) : bool :=
  Nat.ltb (count_effect is_udp_close l) (count_effect is_udp_create l).

Definition settled {A : Type} (o : Settled A) : bool :=
  match o with
  | Fulfilled _ | Failed _ => true
  | _ => false
  end.

(** ** The forwarding middleware (index.js) *)

(** The [forwarders] argument: a single server name or an array of them. *)
Inductive Forwarders : Type :=
| OneServer (s : string)
| ServerList (l : list string).

(** [Array.isArray(forwarders) ? forwarders.slice(0) : [ forwarders ]] *)
Definition server_list (forwarders : Forwarders) : list string :=
  match forwarders with
  | OneServer s => [s]
  | ServerList l => l
  end.

(** One call of the transport client as the middleware made it. *)
Record ClientCall (RR : Type) : Type := mkCall {
  call_host : string;
  call_port : Z;
  call_options : Options;
  call_run : Run RR
}.

Arguments mkCall {RR}.
Arguments call_host {RR}.
Arguments call_port {RR}.
Arguments call_options {RR}.
Arguments call_run {RR}.

(** What one invocation of the middleware did: the client calls in order,
    [res.packet] afterwards, and the arguments of every call of [next]
    ([None] for [next()], [Some e] for [next(e)]). *)
Record ForwardRun (RR : Type) : Type := mkForwardRun {
  calls : list (ClientCall RR);
  res_packet : Packet RR;
  next_calls : list (option Error)
}.

Arguments mkForwardRun {RR}.
Arguments calls {RR}.
Arguments res_packet {RR}.
Arguments next_calls {RR}.

Section Forward.

Context {RR : Type}.
Variable serialize : Packet RR -> bytes.
Variable parse : bytes -> Error + Packet RR.

(** [for (const x of src) dst.push(x);] *)
Definition push_all (dst src : list RR) : list RR :=
  fold_left (fun acc x => acc ++ [x]) src dst.

(** [success(result)] up to the call of [next]: the assignments to
    [res.packet]. *)
Definition success (res result : Packet RR) : Packet RR :=
  {| id := id res;
     truncated := truncated res;
     rcode := rcode result;
     answer := push_all (answer res) (answer result);
     authority := push_all (authority res) (authority result);
     additional := push_all (additional res) (additional result) |}.

(** [tryForward(i)]: [servers] is what the array iterator has not yet
    produced; [envs i] is what the outside world does during the i-th
    client call.  A rejected client call is caught and the next server is
    tried; a client call that never settles leaves the chain pending. *)
Fixpoint tryForward (req : Packet RR) (envs : nat -> Env)
         (servers : list string) (i : nat)
  : Settled (Packet RR) * list (ClientCall RR) :=
  match servers with
  | [] => (Failed "No more servers to try"%string, [])
  | value :: rest =>
      (* client(next.value, 53, req.packet): no fourth argument *)
      let run := client serialize parse value 53 req OptUndefined (envs i) in
      let call := mkCall value 53 OptUndefined run in
      match outcome run with
      | Fulfilled result => (Fulfilled result, [call])
      | Failed _ =>
          let '(o, more) := tryForward req envs rest (S i) in (o, call :: more)
      | Threw e => (Threw e, [call])
      | Waiting => (Waiting, [call])
      end
  end.

(** The function returned by [module.exports(forwarders)], applied to
    [(req, res, next)].  [next_throws] says whether the pipeline's
    continuation throws when called as [next()]: that exception rejects
    the promise of [.then(success)] and reaches the final [.catch]. *)
Definition forward (forwarders : Forwarders) (req res : Packet RR)
           (next_throws : option Error) (envs : nat -> Env) : ForwardRun RR :=
  let forwarders := server_list forwarders in
  match tryForward req envs forwarders 0 with
  | (Fulfilled result, cs) =>
      let res' := success res result in
      match next_throws with
      | None => mkForwardRun cs res' [None]
      | Some e => mkForwardRun cs res' [None; Some e]
      end
  | (Failed e, cs) => mkForwardRun cs res [Some e]
  | (Threw _, cs) => mkForwardRun cs res []
  | (Waiting, cs) => mkForwardRun cs res []
  end.

End Forward.

(** ** A small concrete codec, for closed examples

    A four-byte header (id high, id low, truncated flag, rcode) followed by
    one-byte answer records; shorter inputs do not decode. *)

Definition sample_serialize (p : Packet Z) : bytes :=
  [Z.shiftr (id p) 8; Z.land (id p) 255; if truncated p then 1 else 0; rcode p]
    ++ answer p.

Definition sample_parse (b : bytes) : Error + Packet Z :=
  match b with
  | hi :: lo :: tc :: rc :: rest =>
      inr (mkPacket (hi * 256 + lo) (tc =? 1) rc rest [] [])
  | _ => inl "Header too short"%string
  end.

Definition sample_query : Packet Z := mkPacket 7 false 0 [] [] [].
Definition sample_answer : Packet Z := mkPacket 7 false 0 [10; 20] [] [].
Definition sample_truncated : Packet Z := mkPacket 7 true 0 [] [] [].
Definition sample_stray : Packet Z := mkPacket 9 false 0 [99] [] [].

(** A lookup that succeeds, a datagram that does not decode, then the
    matching answer, then the timer. *)
Definition env_malformed_datagram : Env :=
  mkEnv (inr ("192.0.2.1"%string, 4))
        [UdpSendDone None; UdpMessage [1; 2];
         UdpMessage (sample_serialize sample_answer); UdpTimer]
        [].

(** A stray datagram, then the matching answer over UDP. *)
Definition env_udp_answer : Env :=
  mkEnv (inr ("192.0.2.1"%string, 4))
        [UdpSendDone None; UdpMessage (sample_serialize sample_stray);
         UdpMessage (sample_serialize sample_answer)]
        [].

(** A truncated answer over UDP, then a connection on which the framed
    answer arrives in two reads, the first one ending inside the prefix. *)
Definition env_tcp_answer : Env :=
  mkEnv (inr ("192.0.2.1"%string, 4))
        [UdpSendDone None; UdpMessage (sample_serialize sample_truncated)]
        [TcpConnectCb None; TcpData [0];
         TcpData (6 :: sample_serialize sample_answer)].

(** A server whose name does not resolve. *)
Definition env_unresolved : Env :=
  mkEnv (inl "ENOTFOUND"%string) [] [].

(** A server that never answers: the UDP timer fires. *)
Definition env_silent : Env :=
  mkEnv (inr ("192.0.2.2"%string, 4)) [UdpSendDone None; UdpTimer] [].

(** Two servers that both fail: the first does not resolve, the second
    never answers. *)
Definition envs_all_fail (i : nat) : Env :=
  match i with
  | O => env_unresolved
  | _ => env_silent
  end.

(** The first server does not resolve, the second answers over TCP. *)
Definition envs_second_answers (i : nat) : Env :=
  match i with
  | O => env_unresolved
  | _ => env_tcp_answer
  end.

(** The datagram cannot be sent. *)
Definition env_send_error : Env :=
  mkEnv (inr ("192.0.2.3"%string, 4)) [UdpSendDone (Some "EHOSTUNREACH"%string)] [].

(** A truncated answer over UDP, then a connection that is reset after
    the query was written; the timer fires later. *)
Definition env_tcp_reset : Env :=
  mkEnv (inr ("192.0.2.1"%string, 4))
        [UdpSendDone None; UdpMessage (sample_serialize sample_truncated)]
        [TcpConnectCb None; TcpError "ECONNRESET"%string; TcpTimer].

(** A truncated answer over UDP, then a connection that is refused. *)
Definition env_tcp_refused : Env :=
  mkEnv (inr ("192.0.2.1"%string, 4))
        [UdpSendDone None; UdpMessage (sample_serialize sample_truncated)]
        [TcpError "ECONNREFUSED"%string].

(** A lookup that reports family 0; later the timer fires. *)
Definition env_unclassified : Env :=
  mkEnv (inr ("203.0.113.7"%string, 0)) [UdpTimer] [].

(** Three servers: the first does not resolve, the second never answers,
    the third answers over UDP after a stray datagram. *)
Definition envs_third_answers (i : nat) : Env :=
  match i with
  | O => env_unresolved
  | S O => env_silent
  | _ => env_udp_answer
  end.

(** A response under construction that already holds a record. *)
Definition sample_response : Packet Z := mkPacket 7 false 5 [1] [2] [3].

(** ** Events that leave the UDP promise pending *)

(** The callbacks of the UDP phase after which the promise is still
    pending: a send that completed without error, and a datagram that
    decodes to a message with another transaction id. *)
Definition udp_ignored {RR : Type} (parse : bytes -> Error + Packet RR)
           (requestId : Z) (ev : UdpEvent) : bool :=
  match ev with
  | UdpSendDone None => true
  | UdpMessage data =>
      match parse data with
      | inr response => negb (id response =? requestId)
      | inl _ => false
      end
  | _ => false
  end.

Definition is_set_timeout (e : Effect) : bool :=
  match e with ESetTimeout _ => true | _ => false end.
Definition is_clear_timeout (e : Effect) : bool :=
  match e with EClearTimeout => true | _ => false end.

(** * Properties *)

(** ** The length prefix *)

Lemma length_prefix_bytes (len : Z) :
  0 <= len <= 65535 ->
  length_prefix len = [len / 256; len mod 256].
Proof.
  intros Hlen. unfold length_prefix, Buffer_from. cbn [map].
  change 255 with (Z.ones 8). change 0xff00 with (Z.shiftl (Z.ones 8) 8).
  rewrite !Z.land_ones by lia.
  assert (Hhi : Z.shiftr (Z.land len (Z.shiftl (Z.ones 8) 8)) 8 = len / 256).
  { rewrite Z.shiftr_land, Z.shiftr_shiftl_l by lia.
    replace (8 - 8) with 0 by lia. rewrite Z.shiftl_0_r.
    rewrite Z.land_ones, Z.shiftr_div_pow2 by lia.
    change (2 ^ 8) with 256.
    apply Z.mod_small. split.
    - apply Z.div_pos; lia.
    - apply Z.div_lt_upper_bound; lia. }
  rewrite Hhi. change (2 ^ 8) with 256.
  rewrite Z.mod_mod by lia.
  rewrite (Z.mod_small (len / 256)); [reflexivity|].
  split; [apply Z.div_pos; lia | apply Z.div_lt_upper_bound; lia].
Qed.

Lemma frame_cons (msg : bytes) :
  blength msg <= 65535 ->
  frame msg = (blength msg / 256) :: (blength msg mod 256) :: msg.
Proof.
  intros H. unfold frame. rewrite length_prefix_bytes; [reflexivity|].
  unfold blength in *. lia.
Qed.

Lemma blength_app (a b : bytes) : blength (a ++ b) = blength a + blength b.
Proof. unfold blength. rewrite length_app. lia. Qed.

Lemma blength_nonneg (a : bytes) : 0 <= blength a.
Proof. unfold blength. lia. Qed.

Lemma blength_frame (msg : bytes) :
  blength msg <= 65535 -> blength (frame msg) = blength msg + 2.
Proof.
  intros H. rewrite frame_cons by exact H. unfold blength. cbn [List.length]. lia.
Qed.

(** Any piece of at least two bytes from the start of a frame shows the
    length of the message. *)
Lemma readUInt16BE_frame_prefix (msg buf tail : bytes) :
  blength msg <= 65535 ->
  frame msg = buf ++ tail ->
  2 <= blength buf ->
  readUInt16BE buf = blength msg.
Proof.
  intros Hlen Hsplit Hbuf. rewrite frame_cons in Hsplit by exact Hlen.
  destruct buf as [|hi [|lo buf]]; unfold blength in Hbuf; cbn in Hbuf; try lia.
  cbn in Hsplit. injection Hsplit as Hhi Hlo _. subst hi lo.
  cbn [readUInt16BE].
  pose proof (Z.div_mod (blength msg) 256). lia.
Qed.

Lemma slice_frame (msg : bytes) :
  blength msg <= 65535 ->
  slice 2 (Z.to_nat (blength msg + 2)) (frame msg) = msg.
Proof.
  intros Hlen. rewrite frame_cons by exact Hlen. unfold slice.
  cbn [skipn]. unfold blength.
  replace (Z.to_nat (Z.of_nat (List.length msg) + 2) - 2)%nat
    with (List.length msg) by lia.
  apply firstn_all.
Qed.

(** ** Reassembly of one framed message *)

Section FramingFacts.

Context {P : Type}.
Variable parse : bytes -> Error + P.

Lemma on_data_buffer (st : FrameState) (b : bytes) :
  match buffer st with Some old => old ++ b | None => b end = buffered st ++ b.
Proof. unfold buffered. destruct (buffer st); reflexivity. Qed.

(** A chunk that leaves the frame incomplete is buffered and nothing is
    emitted. *)
Lemma on_data_incomplete (len : Z) (st : FrameState) (b : bytes) :
  awaiting len st ->
  (2 <= blength (buffered st ++ b) -> readUInt16BE (buffered st ++ b) = len) ->
  blength (buffered st ++ b) < len + 2 ->
  exists st', on_data parse st b = (st', NoPacket)
              /\ buffered st' = buffered st ++ b
              /\ awaiting len st'.
Proof.
  intros Haw Hread Hshort. unfold on_data. rewrite on_data_buffer.
  set (buf := buffered st ++ b) in *.
  destruct Haw as [Hnone | [Hsome Hpos]].
  - rewrite Hnone. cbn [packetLength_falsy andb].
    destruct (blength buf <? 2) eqn:Hlt.
    + eexists; split; [reflexivity|]. split; [reflexivity|]. left; reflexivity.
    + apply Z.ltb_ge in Hlt. rewrite (Hread Hlt).
      destruct (len + 2 <=? blength buf) eqn:Hge;
        [apply Z.leb_le in Hge; lia|].
      rewrite Z.geb_leb, Hge.
      eexists; split; [reflexivity|]. split; [reflexivity|].
      right; split; [reflexivity | lia].
  - rewrite Hsome. cbn [packetLength_falsy].
    destruct (len =? 0) eqn:Hz; [apply Z.eqb_eq in Hz; lia|].
    cbn [andb]. rewrite Z.geb_leb.
    destruct (len + 2 <=? blength buf) eqn:Hge;
      [apply Z.leb_le in Hge; lia|].
    eexists; split; [reflexivity|]. split; [reflexivity|].
    right; split; [reflexivity | lia].
Qed.

(** The chunk that completes the frame hands exactly the framed bytes to
    the parser and emits what it returns. *)
Lemma on_data_complete (len : Z) (st : FrameState) (b : bytes) (p : P) :
  awaiting len st ->
  0 <= len ->
  readUInt16BE (buffered st ++ b) = len ->
  len + 2 <= blength (buffered st ++ b) ->
  parse (slice 2 (Z.to_nat (len + 2)) (buffered st ++ b)) = inr p ->
  on_data parse st b
  = (mkFrameState (Some (slice_from (Z.to_nat len) (buffered st ++ b))) None,
     Emit p).
Proof.
  intros Haw Hnn Hread Hlong Hparse. unfold on_data. rewrite on_data_buffer.
  set (buf := buffered st ++ b) in *.
  assert (Hlt : (blength buf <? 2) = false) by (apply Z.ltb_ge; lia).
  assert (Hge : (blength buf >=? len + 2) = true)
    by (rewrite Z.geb_leb; apply Z.leb_le; lia).
  destruct Haw as [Hnone | [Hsome Hpos]].
  - rewrite Hnone. cbn [packetLength_falsy andb]. rewrite Hlt, Hread, Hge, Hparse.
    reflexivity.
  - rewrite Hsome. cbn [packetLength_falsy].
    destruct (len =? 0) eqn:Hz; [apply Z.eqb_eq in Hz; lia|].
    cbn [andb]. rewrite Hge, Hparse. reflexivity.
Qed.

(** Feeding the rest of a frame, cut into non-empty chunks, to a
    reassembler that holds the beginning of it emits the message once. *)
Lemma feed_rest_of_frame (msg : bytes) (p : P) :
  blength msg <= 65535 ->
  parse msg = inr p ->
  forall (chunks : list bytes) (st : FrameState),
    Forall (fun c => c <> []) chunks ->
    frame msg = buffered st ++ concat chunks ->
    awaiting (blength msg) st ->
    blength (buffered st) < blength msg + 2 ->
    emitted (snd (feed parse st chunks)) = [p].
Proof.
  intros Hlen Hparse.
  induction chunks as [|b rest IH]; intros st Hne Hsplit Haw Hshort.
  - cbn [concat] in Hsplit. rewrite app_nil_r in Hsplit.
    rewrite <- Hsplit, blength_frame in Hshort by exact Hlen. lia.
  - cbn [concat] in Hsplit. rewrite app_assoc in Hsplit.
    inversion Hne as [|? ? Hb Hrest]; subst.
    assert (Hread : 2 <= blength (buffered st ++ b) ->
                    readUInt16BE (buffered st ++ b) = blength msg)
      by (intros; eapply readUInt16BE_frame_prefix; eauto).
    assert (Htotal : blength (buffered st ++ b) + blength (concat rest)
                     = blength msg + 2)
      by (rewrite <- blength_app, <- Hsplit; apply blength_frame; exact Hlen).
    pose proof (blength_nonneg (concat rest)) as Hnn.
    cbn [feed].
    destruct (Z.eq_dec (blength (concat rest)) 0) as [Hdone | Hmore].
    + (* this chunk completes the frame *)
      assert (Hnil : concat rest = [])
        by (destruct (concat rest); [reflexivity | unfold blength in Hdone; cbn in Hdone; lia]).
      assert (rest = []) as ->.
      { destruct rest as [|c rest']; [reflexivity|].
        inversion Hrest as [|? ? Hc _]; subst. cbn [concat] in Hnil.
        destruct c; [congruence | discriminate]. }
      rewrite Hnil, app_nil_r in Hsplit.
      rewrite (on_data_complete (blength msg) st b p); try assumption.
      * reflexivity.
      * apply blength_nonneg.
      * apply Hread. pose proof (blength_nonneg msg). lia.
      * lia.
      * rewrite <- Hsplit. rewrite slice_frame by exact Hlen. exact Hparse.
    + destruct (on_data_incomplete (blength msg) st b Haw Hread)
        as (st' & Hstep & Hbuf & Haw'); [lia|].
      rewrite Hstep.
      specialize (IH st' Hrest).
      destruct (feed parse st' rest) as [st2 rs] eqn:Hfeed.
      cbn [snd emitted] in *. apply IH.
      * rewrite Hbuf. exact Hsplit.
      * exact Haw'.
      * rewrite Hbuf. lia.
Qed.

(** Round trip of one message on a fresh connection: however the frame
    is cut into non-empty reads, the parser is run on exactly the
    message bytes, once. *)
Lemma frame_roundtrip (msg : bytes) (p : P) (chunks : list bytes) :
  blength msg <= 65535 ->
  parse msg = inr p ->
  Forall (fun c => c <> []) chunks ->
  concat chunks = frame msg ->
  emitted (snd (feed parse frame_init chunks)) = [p].
Proof.
  intros Hlen Hparse Hne Hcat.
  apply (feed_rest_of_frame msg p Hlen Hparse chunks frame_init Hne).
  - cbn. symmetry. exact Hcat.
  - left. reflexivity.
  - cbn. pose proof (blength_nonneg msg). lia.
Qed.

End FramingFacts.

(** With the parser that returns its input, the reassembler yields exactly
    the bytes that were framed. *)
Corollary frame_roundtrip_bytes (msg : bytes) (chunks : list bytes) :
  blength msg <= 65535 ->
  Forall (fun c => c <> []) chunks ->
  concat chunks = frame msg ->
  emitted (snd (feed raw_parse frame_init chunks)) = [msg].
Proof.
  intros Hlen Hne Hcat.
  exact (frame_roundtrip raw_parse msg msg chunks Hlen eq_refl Hne Hcat).
Qed.

(** The prefix split across two reads and the body across two more. *)
Example frame_roundtrip_split_prefix :
  emitted (snd (feed raw_parse frame_init [[0]; [3; 1]; [2]; [3]])) = [[1; 2; 3]].
Proof.
  apply (frame_roundtrip_bytes [1; 2; 3]).
  - unfold blength. cbn. lia.
  - repeat constructor; discriminate.
  - reflexivity.
Defined.

(** After one whole frame the reassembler keeps the last two bytes of it
    instead of none: [buffer.slice(packetLength)] drops [packetLength]
    bytes where the frame had [packetLength + 2]. *)
Lemma frame_leftover {P : Type} (parse : bytes -> Error + P) (msg : bytes) (p : P) :
  blength msg <= 65535 ->
  parse msg = inr p ->
  on_data parse frame_init (frame msg)
  = (mkFrameState (Some (skipn (List.length msg) (frame msg))) None, Emit p)
  /\ List.length (skipn (List.length msg) (frame msg)) = 2%nat.
Proof.
  intros Hlen Hparse. split.
  - rewrite (on_data_complete parse (blength msg) frame_init (frame msg) p).
    + unfold slice_from, blength. cbn [buffered frame_init buffer app].
      rewrite Nat2Z.id. reflexivity.
    + left; reflexivity.
    + apply blength_nonneg.
    + cbn [buffered frame_init buffer app].
      apply (readUInt16BE_frame_prefix msg (frame msg) []); auto.
      * now rewrite app_nil_r.
      * rewrite blength_frame by exact Hlen. pose proof (blength_nonneg msg). lia.
    + cbn [buffered frame_init buffer app]. rewrite blength_frame by exact Hlen. lia.
    + cbn [buffered frame_init buffer app]. rewrite slice_frame by exact Hlen.
      exact Hparse.
  - rewrite length_skipn, frame_cons by exact Hlen. cbn [List.length]. lia.
Qed.

(** C4 (the code departs from the claim): two framed messages, [1;2;3]
    and [4], sent back to back on one connection.  Whether they arrive as
    two reads or as one, the reassembler emits only the first message; the
    second is never delivered, and since the two stale bytes kept from the
    first frame are read as the next length (0x0203), later reads do not
    recover it either. *)
Theorem back_to_back_frames_lose_second_message :
  emitted (snd (feed raw_parse frame_init [frame [1; 2; 3]; frame [4]]))
  = [[1; 2; 3]]
  /\ emitted (snd (feed raw_parse frame_init [frame [1; 2; 3] ++ frame [4]]))
     = [[1; 2; 3]]
  /\ fst (feed raw_parse frame_init [frame [1; 2; 3]; frame [4]])
     = mkFrameState (Some [2; 3; 0; 1; 4]) (Some 515)
  /\ emitted (snd (feed raw_parse frame_init
                        [frame [1; 2; 3]; frame [4]; frame [4]; frame [4]]))
     = [[1; 2; 3]].
Proof. repeat split; vm_compute; reflexivity. Qed.

(** ** Reading logs *)

Lemma reader_teardown {B : Type} (f : Effect -> list B) (l : list Effect) :
  (forall e, is_teardown e = true -> f e = []) ->
  teardown_only l ->
  flat_map f l = [].
Proof.
  intros Hf Hl. induction Hl as [|e l He _ IH]; [reflexivity|].
  cbn [flat_map]. rewrite (Hf e He), IH. reflexivity.
Qed.

Lemma filter_teardown (f : Effect -> bool) (l : list Effect) :
  (forall e, is_teardown e = true -> f e = false) ->
  teardown_only l ->
  filter f l = [].
Proof.
  intros Hf Hl. induction Hl as [|e l He _ IH]; [reflexivity|].
  cbn [filter]. rewrite (Hf e He), IH. reflexivity.
Qed.

Lemma tcp_connects_teardown l : teardown_only l -> tcp_connects l = [].
Proof. apply reader_teardown. intros []; easy. Qed.

Lemma udp_sends_teardown l : teardown_only l -> udp_sends l = [].
Proof. apply reader_teardown. intros []; easy. Qed.

Lemma tcp_writes_teardown l : teardown_only l -> tcp_writes l = [].
Proof. apply reader_teardown. intros []; easy. Qed.

Lemma timeouts_teardown l : teardown_only l -> timeouts l = [].
Proof. apply reader_teardown. intros []; easy. Qed.

Lemma serialize_teardown l : teardown_only l -> filter is_serialize l = [].
Proof. apply filter_teardown. intros []; easy. Qed.

Lemma udp_create_teardown l : teardown_only l -> filter is_udp_create l = [].
Proof. apply filter_teardown. intros []; easy. Qed.

Lemma tcp_connects_app a b : tcp_connects (a ++ b) = tcp_connects a ++ tcp_connects b.
Proof. apply flat_map_app. Qed.

Lemma udp_sends_app a b : udp_sends (a ++ b) = udp_sends a ++ udp_sends b.
Proof. apply flat_map_app. Qed.

Lemma tcp_writes_app a b : tcp_writes (a ++ b) = tcp_writes a ++ tcp_writes b.
Proof. apply flat_map_app. Qed.

Lemma timeouts_app a b : timeouts (a ++ b) = timeouts a ++ timeouts b.
Proof. apply flat_map_app. Qed.

Lemma serialize_count_app a b :
  serialize_count (a ++ b) = (serialize_count a + serialize_count b)%nat.
Proof. unfold serialize_count, count_effect. now rewrite filter_app, length_app. Qed.

Lemma serialize_count_teardown l : teardown_only l -> serialize_count l = 0%nat.
Proof.
  intros H. unfold serialize_count, count_effect.
  now rewrite serialize_teardown.
Qed.

(** ** The transport client *)

Section ClientFacts.

Context {RR : Type}.
Variable serialize : Packet RR -> bytes.
Variable parse : bytes -> Error + Packet RR.

Lemma udp_wait_teardown (requestId : Z) (evs : list UdpEvent) :
  teardown_only (snd (udp_wait parse requestId evs)).
Proof.
  induction evs as [|ev rest IH]; cbn [udp_wait].
  - constructor.
  - destruct ev as [|data|[e|]].
    + repeat constructor.
    + destruct (parse data) as [e|response]; [constructor|].
      destruct (id response =? requestId); [repeat constructor | exact IH].
    + repeat constructor.
    + exact IH.
Qed.

Lemma tcp_connect_wait_teardown (evs : list TcpEvent) (st : FrameState) :
  teardown_only (snd (tcp_connect_wait parse st evs)).
Proof.
  revert st. induction evs as [|ev rest IH]; intros st; cbn [tcp_connect_wait].
  - constructor.
  - destruct ev as [[e|]|e| | |b|]; try (repeat constructor); try apply IH.
    destruct (on_data parse st b) as [st' []]; try apply IH.
    repeat constructor.
Qed.

Lemma tcp_wait_teardown (packetId : Z) (evs : list TcpEvent) (st : FrameState) :
  teardown_only (snd (tcp_wait parse packetId st evs)).
Proof.
  revert st. induction evs as [|ev rest IH]; intros st; cbn [tcp_wait].
  - constructor.
  - destruct ev as [[e|]|e| | |b|]; try apply IH; try (repeat constructor).
    + specialize (IH st). destruct (tcp_wait parse packetId st rest).
      constructor; [reflexivity | exact IH].
    + destruct (on_data parse st b) as [st' [|response|e]]; try apply IH.
      * destruct (id response =? packetId); [repeat constructor | apply IH].
      * specialize (IH st'). destruct (tcp_wait parse packetId st' rest).
        constructor; [reflexivity | exact IH].
Qed.

(** Case analysis of a run of [client]: every [match] of the function is
    split, and the three waits are replaced by their results together
    with the fact that their effects are teardown calls. *)
Ltac client_cases :=
  unfold client;
  repeat match goal with
  | |- context [udp_wait parse ?i ?evs] =>
      let H := fresh "Hudp" in
      pose proof (udp_wait_teardown i evs) as H;
      destruct (udp_wait parse i evs) as [[? | ? | ? |] ?] eqn:?; cbn [snd] in H
  | |- context [tcp_connect_wait parse ?st ?evs] =>
      let H := fresh "Hconn" in
      pose proof (tcp_connect_wait_teardown evs st) as H;
      destruct (tcp_connect_wait parse st evs) as [[[? ?] | ? | ? |] ?] eqn:?;
      cbn [snd] in H
  | |- context [tcp_wait parse ?i ?st ?evs] =>
      let H := fresh "Htcp" in
      pose proof (tcp_wait_teardown i evs st) as H;
      destruct (tcp_wait parse i st evs) as [? ?] eqn:?; cbn [snd] in H
  | |- context [match lookup_result ?env with _ => _ end] =>
      destruct (lookup_result env) as [? | [? ?]] eqn:?
  | |- context [match createSocket_throws ?f with _ => _ end] =>
      destruct (createSocket_throws f) eqn:?
  | |- context [match send_throws ?p with _ => _ end] =>
      destruct (send_throws p) eqn:?
  | |- context [negb (truncated ?r)] =>
      destruct (truncated r) eqn:?; cbn [negb]
  end;
  cbn [effects outcome].

(** Evaluation of the log readers on a log in which the teardown parts
    are abstract. *)
Ltac read_log :=
  repeat (rewrite ?tcp_connects_app, ?udp_sends_app, ?tcp_writes_app,
           ?timeouts_app, ?serialize_count_app);
  repeat match goal with
  | H : teardown_only ?l |- _ =>
      rewrite ?(tcp_connects_teardown l H), ?(udp_sends_teardown l H),
        ?(tcp_writes_teardown l H), ?(timeouts_teardown l H),
        ?(serialize_count_teardown l H);
      clear H
  end;
  cbn [tcp_connects udp_sends tcp_writes timeouts flat_map app
       serialize_count count_effect filter is_serialize List.length Nat.add].

(** C1: when the UDP phase yields a response (the socket was created, the
    datagram sent, and a matching datagram came back), a response that is
    not truncated is what the client returns and no TCP connection is
    opened;
    a truncated one leads to exactly one [createConnection], to the
    address the lookup returned and the port the datagram was sent to. *)
Theorem truncation_decides_tcp_escalation
        (host : string) (port : Z) (packet : Packet RR) (options : Options)
        (env : Env) (address : string) (family : Z)
        (response : Packet RR) (udp_effs : list Effect) :
  lookup_result env = inr (address, family) ->
  createSocket_throws family = None ->
  send_throws port = None ->
  udp_wait parse (id packet) (udp_events env) = (Fulfilled response, udp_effs) ->
  (truncated response = false ->
     outcome (client serialize parse host port packet options env)
     = Fulfilled response
     /\ tcp_connects (effects (client serialize parse host port packet options env))
        = [])
  /\ (truncated response = true ->
        tcp_connects (effects (client serialize parse host port packet options env))
        = [(port, address)]
        /\ udp_sends (effects (client serialize parse host port packet options env))
           = [(serialize packet, port, address)]).
Proof.
  intros Hlookup Hcreate Hsend Hwait.
  pose proof (udp_wait_teardown (id packet) (udp_events env)) as Hudp.
  rewrite Hwait in Hudp. cbn [snd] in Hudp.
  unfold client. rewrite Hlookup, Hcreate, Hsend, Hwait.
  split; intros Htc; rewrite Htc; cbn [negb].
  - split; [reflexivity|]. cbn [effects]. read_log. reflexivity.
  - client_cases; read_log; split; reflexivity.
Qed.

(** C5 (amended): when the lookup succeeds the query is serialized once
    before the UDP attempt, and that serialization is the datagram sent
    (when [createSocket] and [send] do not throw).  It is serialized a
    second time exactly when the UDP answer is truncated and the TCP
    connection is established: the writes on the connection are then the
    length prefix and the serialization of the same query.  In every
    other exchange it is serialized exactly once and nothing is written
    on TCP. *)
Theorem query_serialized_for_each_send
        (host : string) (port : Z) (packet : Packet RR) (options : Options)
        (env : Env) (address : string) (family : Z) :
  lookup_result env = inr (address, family) ->
  (createSocket_throws family = None ->
   send_throws port = None ->
   udp_sends (effects (client serialize parse host port packet options env))
   = [(serialize packet, port, address)])
  /\ (forall first udp_effs st rest conn_effs,
        createSocket_throws family = None ->
        send_throws port = None ->
        udp_wait parse (id packet) (udp_events env) = (Fulfilled first, udp_effs) ->
        truncated first = true ->
        tcp_connect_wait parse frame_init (tcp_events env)
        = (Fulfilled (st, rest), conn_effs) ->
        serialize_count (effects (client serialize parse host port packet options env))
        = 2%nat
        /\ tcp_writes (effects (client serialize parse host port packet options env))
           = [length_prefix (blength (serialize packet)); serialize packet])
  /\ ((serialize_count (effects (client serialize parse host port packet options env))
       = 1%nat
       /\ tcp_writes (effects (client serialize parse host port packet options env))
          = [])
      \/ (exists first udp_effs st rest conn_effs,
             createSocket_throws family = None
             /\ send_throws port = None
             /\ udp_wait parse (id packet) (udp_events env)
                = (Fulfilled first, udp_effs)
             /\ truncated first = true
             /\ tcp_connect_wait parse frame_init (tcp_events env)
                = (Fulfilled (st, rest), conn_effs))).
Proof.
  intros Hlookup. unfold client. rewrite Hlookup.
  split; [|split].
  - intros Hcreate Hsend. rewrite Hcreate, Hsend.
    client_cases; read_log; reflexivity.
  - intros first udp_effs st rest conn_effs Hcreate Hsend Hudp Htc Hconn.
    pose proof (udp_wait_teardown (id packet) (udp_events env)) as Hudp_t.
    pose proof (tcp_connect_wait_teardown (tcp_events env) frame_init) as Hconn_t.
    rewrite Hudp in Hudp_t. rewrite Hconn in Hconn_t. cbn [snd] in Hudp_t, Hconn_t.
    rewrite Hcreate, Hsend, Hudp, Htc, Hconn. cbn [negb].
    client_cases; read_log; split; reflexivity.
  - client_cases;
      first [ left; read_log; split; reflexivity
            | right; do 5 eexists; repeat split;
              first [reflexivity | eassumption] ].
Qed.

(** Both timers of an exchange are armed with the one [timeout] value. *)
Lemma client_timeouts
      (host : string) (port : Z) (packet : Packet RR) (options : Options)
      (env : Env) :
  Forall (fun ms => ms = effective_timeout options)
         (timeouts (effects (client serialize parse host port packet options env))).
Proof. client_cases; read_log; repeat constructor. Qed.

(** One timer per phase: when the lookup succeeds a timer with the
    [timeout] delay is armed for the UDP phase, and a second one with the
    same delay exactly when the query is written on the TCP connection. *)
Lemma client_arms_timer_per_phase
      (host : string) (port : Z) (packet : Packet RR) (options : Options)
      (env : Env) (address : string) (family : Z) :
  lookup_result env = inr (address, family) ->
  timeouts (effects (client serialize parse host port packet options env))
  = match tcp_writes (effects (client serialize parse host port packet options env))
    with
    | [] => [effective_timeout options]
    | _ :: _ => [effective_timeout options; effective_timeout options]
    end.
Proof.
  intros Hlookup. unfold client. rewrite Hlookup.
  client_cases; read_log; reflexivity.
Qed.

(** C8 (amended): the timeout is the [timeout] option whenever that is
    an integer, of any sign, and 3000 whenever it is anything else or
    there are no options; every timer of the exchange is armed with it. *)
Theorem timeout_is_integer_option_or_default
        (host : string) (port : Z) (packet : Packet RR) (options : Options)
        (env : Env) :
  (forall z, options_timeout options = Js.Num (Js.NumInt z) ->
             effective_timeout options = z)
  /\ (Js.Number_isInteger (options_timeout options) = false ->
      effective_timeout options = 3000)
  /\ Forall (fun ms => ms = effective_timeout options)
            (timeouts (effects (client serialize parse host port packet options env))).
Proof.
  split; [|split].
  - intros z Hz. unfold effective_timeout. rewrite Hz. reflexivity.
  - intros Hno. unfold effective_timeout. rewrite Hno. reflexivity.
  - apply client_timeouts.
Qed.

(** A datagram that does not decode: the exception leaves the listener. *)
Lemma udp_wait_malformed (requestId : Z) (data : bytes) (e : Error)
      (rest : list UdpEvent) :
  parse data = inl e ->
  udp_wait parse requestId (UdpMessage data :: rest) = (Threw e, []).
Proof. intros H. cbn [udp_wait]. rewrite H. reflexivity. Qed.

(** A datagram that decodes to another transaction id is skipped. *)
Lemma udp_wait_stray (requestId : Z) (data : bytes) (response : Packet RR)
      (rest : list UdpEvent) :
  parse data = inr response ->
  id response <> requestId ->
  udp_wait parse requestId (UdpMessage data :: rest)
  = udp_wait parse requestId rest.
Proof.
  intros H Hid. cbn [udp_wait]. rewrite H.
  destruct (id response =? requestId) eqn:E; [apply Z.eqb_eq in E; contradiction|].
  reflexivity.
Qed.

(** The UDP promise closes the socket exactly when it settles. *)
Lemma udp_wait_closes (requestId : Z) (evs : list UdpEvent) :
  count_effect is_udp_close (snd (udp_wait parse requestId evs))
  = if settled (fst (udp_wait parse requestId evs)) then 1%nat else 0%nat.
Proof.
  induction evs as [|ev rest IH]; cbn [udp_wait]; [reflexivity|].
  destruct ev as [|data|[e|]]; try reflexivity; try exact IH.
  destruct (parse data) as [e|response]; [reflexivity|].
  destruct (id response =? requestId); [reflexivity | exact IH].
Qed.

Lemma tcp_connect_wait_no_udp_close (evs : list TcpEvent) (st : FrameState) :
  count_effect is_udp_close (snd (tcp_connect_wait parse st evs)) = 0%nat.
Proof.
  revert st. induction evs as [|ev rest IH]; intros st; cbn [tcp_connect_wait];
    [reflexivity|].
  destruct ev as [[e|]|e| | |b|]; try reflexivity; try apply IH.
  destruct (on_data parse st b) as [st' []]; try apply IH. reflexivity.
Qed.

Lemma tcp_wait_no_udp_close (packetId : Z) (evs : list TcpEvent) (st : FrameState) :
  count_effect is_udp_close (snd (tcp_wait parse packetId st evs)) = 0%nat.
Proof.
  revert st. induction evs as [|ev rest IH]; intros st; cbn [tcp_wait];
    [reflexivity|].
  destruct ev as [[e|]|e| | |b|]; try reflexivity; try apply IH.
  - specialize (IH st). destruct (tcp_wait parse packetId st rest). exact IH.
  - destruct (on_data parse st b) as [st' [|response|e]]; try apply IH.
    + destruct (id response =? packetId); [reflexivity | apply IH].
    + specialize (IH st'). destruct (tcp_wait parse packetId st' rest). exact IH.
Qed.

(** The part of the resource claim that holds: when the port is one that
    [send] accepts, whenever the promise of [client] settles, the UDP
    socket, if one was created, has been closed. *)
Lemma udp_socket_closed_when_settled
      (host : string) (port : Z) (packet : Packet RR) (options : Options)
      (env : Env) :
  send_throws port = None ->
  settled (outcome (client serialize parse host port packet options env)) = true ->
  udp_left_open (effects (client serialize parse host port packet options env))
  = false.
Proof.
  intros Hsend. unfold udp_left_open, client.
  destruct (lookup_result env) as [e | [address family]]; [reflexivity|].
  destruct (createSocket_throws family); [reflexivity|].
  rewrite Hsend.
  pose proof (udp_wait_closes (id packet) (udp_events env)) as Hclose.
  pose proof (udp_wait_teardown (id packet) (udp_events env)) as Hudp.
  destruct (udp_wait parse (id packet) (udp_events env)) as [o udp_effs].
  cbn [fst snd] in Hclose, Hudp.
  assert (Hcreate : forall l, teardown_only l ->
                              count_effect is_udp_create l = 0%nat)
    by (intros l Hl; unfold count_effect; now rewrite udp_create_teardown).
  destruct o as [response | e | e |]; cbn [settled] in Hclose;
    try (cbn [outcome settled]; discriminate).
  - destruct (truncated response); cbn [negb].
    + pose proof (tcp_connect_wait_no_udp_close (tcp_events env) frame_init) as Hc.
      pose proof (tcp_connect_wait_teardown (tcp_events env) frame_init) as Hct.
      destruct (tcp_connect_wait parse frame_init (tcp_events env))
        as [[[st rest] | e | e |] conn_effs]; cbn [snd] in Hc, Hct;
        try (cbn [outcome settled]; discriminate).
      * pose proof (tcp_wait_no_udp_close (id packet) rest st) as Ht.
        pose proof (tcp_wait_teardown (id packet) rest st) as Htt.
        destruct (tcp_wait parse (id packet) st rest) as [o tcp_effs].
        cbn [snd] in Ht, Htt. intros _. cbn [effects].
        unfold count_effect in *.
        rewrite !filter_app, !length_app.
        rewrite (udp_create_teardown _ Hudp), (udp_create_teardown _ Hct),
          (udp_create_teardown _ Htt), Hclose, Hc, Ht.
        reflexivity.
      * intros _. cbn [effects]. unfold count_effect in *.
        rewrite !filter_app, !length_app.
        rewrite (udp_create_teardown _ Hudp), (udp_create_teardown _ Hct),
          Hclose, Hc.
        reflexivity.
    + intros _. cbn [effects]. unfold count_effect in *.
      rewrite !filter_app, !length_app, (udp_create_teardown _ Hudp), Hclose.
      reflexivity.
  - intros _. cbn [effects]. unfold count_effect in *.
    rewrite !filter_app, !length_app, (udp_create_teardown _ Hudp), Hclose.
    reflexivity.
Qed.

(** The sibling path that does release the connection: a TCP phase that
    fails has called [socket.end()]. *)
Lemma tcp_wait_failure_ends_socket (packetId : Z) (evs : list TcpEvent)
      (st : FrameState) (e : Error) (effs : list Effect) :
  tcp_wait parse packetId st evs = (Failed e, effs) ->
  In ETcpEnd effs.
Proof.
  revert st effs. induction evs as [|ev rest IH]; intros st effs;
    cbn [tcp_wait]; [discriminate|].
  destruct ev as [[e'|]|e'| | |b|]; try apply IH.
  - destruct (tcp_wait parse packetId st rest) as [o l] eqn:E.
    intros H. injection H as -> <-. left; reflexivity.
  - destruct (on_data parse st b) as [st' [|response|e']]; try apply IH.
    + destruct (id response =? packetId); [discriminate | apply IH].
    + destruct (tcp_wait parse packetId st' rest) as [o l] eqn:E.
      intros H. injection H as -> <-. left; reflexivity.
  - intros H. injection H as _ <-. left; reflexivity.
Qed.

(** *** The UDP phase *)

Lemma udp_wait_skip (requestId : Z) (pre rest : list UdpEvent) :
  forallb (udp_ignored parse requestId) pre = true ->
  udp_wait parse requestId (pre ++ rest) = udp_wait parse requestId rest.
Proof.
  induction pre as [|ev pre IH]; intros Hpre; [reflexivity|].
  cbn [forallb] in Hpre. apply andb_true_iff in Hpre as [Hev Hpre].
  cbn [app udp_wait].
  destruct ev as [|data|[e|]]; cbn [udp_ignored] in Hev; try discriminate.
  - destruct (parse data) as [e|response]; [discriminate|].
    apply negb_true_iff in Hev. rewrite Hev. exact (IH Hpre).
  - exact (IH Hpre).
Qed.

(** On a socket that could be created and sent on, however many datagrams
    with other transaction ids arrive first, the first datagram that
    decodes to the query's id settles the exchange: the
    timer is cleared, the socket closed, and, when the answer is not
    truncated, that answer is the result and nothing else is done. *)
Theorem matching_datagram_after_strays_is_returned
        (host : string) (port : Z) (packet : Packet RR) (options : Options)
        (env : Env) (address : string) (family : Z)
        (pre rest : list UdpEvent) (data : bytes) (response : Packet RR) :
  lookup_result env = inr (address, family) ->
  createSocket_throws family = None ->
  send_throws port = None ->
  udp_events env = pre ++ UdpMessage data :: rest ->
  forallb (udp_ignored parse (id packet)) pre = true ->
  parse data = inr response ->
  id response = id packet ->
  truncated response = false ->
  client serialize parse host port packet options env
  = mkRun [ELookup host; ESerialize; ESetTimeout (effective_timeout options);
           EUdpCreate family; EUdpSend (serialize packet) port address;
           EClearTimeout; EUdpClose]
          (Fulfilled response).
Proof.
  intros Hlookup Hcreate Hsend Hevs Hpre Hparse Hid Htc.
  unfold client. rewrite Hlookup, Hcreate, Hsend, Hevs, (udp_wait_skip _ _ _ Hpre).
  cbn [udp_wait]. rewrite Hparse, Hid, Z.eqb_refl, Htc. reflexivity.
Qed.

(** When the socket was created (family 4 or 6) and the datagram accepted
    by [send] (port in 1..65535): if the timer fires before a datagram with
    the query's id arrived, the socket is closed and the exchange is
    rejected with "Timeout", whatever number of other datagrams came first;
    no TCP connection is tried. *)
Theorem udp_timer_rejects_with_timeout
        (host : string) (port : Z) (packet : Packet RR) (options : Options)
        (env : Env) (address : string) (family : Z)
        (pre rest : list UdpEvent) :
  lookup_result env = inr (address, family) ->
  createSocket_throws family = None ->
  send_throws port = None ->
  udp_events env = pre ++ UdpTimer :: rest ->
  forallb (udp_ignored parse (id packet)) pre = true ->
  client serialize parse host port packet options env
  = mkRun [ELookup host; ESerialize; ESetTimeout (effective_timeout options);
           EUdpCreate family; EUdpSend (serialize packet) port address;
           EUdpClose]
          (Failed "Timeout"%string).
Proof.
  intros Hlookup Hcreate Hsend Hevs Hpre.
  unfold client. rewrite Hlookup, Hcreate, Hsend, Hevs, (udp_wait_skip _ _ _ Hpre).
  reflexivity.
Qed.

(** An error reported by the send callback clears the timer, closes the
    socket and rejects the exchange with that error. *)
Theorem udp_send_error_rejects
        (host : string) (port : Z) (packet : Packet RR) (options : Options)
        (env : Env) (address : string) (family : Z)
        (pre rest : list UdpEvent) (e : Error) :
  lookup_result env = inr (address, family) ->
  createSocket_throws family = None ->
  send_throws port = None ->
  udp_events env = pre ++ UdpSendDone (Some e) :: rest ->
  forallb (udp_ignored parse (id packet)) pre = true ->
  client serialize parse host port packet options env
  = mkRun [ELookup host; ESerialize; ESetTimeout (effective_timeout options);
           EUdpCreate family; EUdpSend (serialize packet) port address;
           EClearTimeout; EUdpClose]
          (Failed e).
Proof.
  intros Hlookup Hcreate Hsend Hevs Hpre.
  unfold client. rewrite Hlookup, Hcreate, Hsend, Hevs, (udp_wait_skip _ _ _ Hpre).
  reflexivity.
Qed.

Lemma udp_wait_fulfilled (requestId : Z) (evs : list UdpEvent)
      (response : Packet RR) (effs : list Effect) :
  udp_wait parse requestId evs = (Fulfilled response, effs) ->
  id response = requestId /\ effs = [EClearTimeout; EUdpClose].
Proof.
  induction evs as [|ev rest IH]; cbn [udp_wait]; [discriminate|].
  destruct ev as [|data|[e|]]; try discriminate; try exact IH.
  destruct (parse data) as [e|r]; [discriminate|].
  destruct (id r =? requestId) eqn:Hid; [|exact IH].
  intros H. injection H as -> <-. apply Z.eqb_eq in Hid. split; [exact Hid | reflexivity].
Qed.

Lemma udp_wait_threw (requestId : Z) (evs : list UdpEvent)
      (e : Error) (effs : list Effect) :
  udp_wait parse requestId evs = (Threw e, effs) ->
  exists data, In (UdpMessage data) evs /\ parse data = inl e.
Proof.
  induction evs as [|ev rest IH]; cbn [udp_wait]; [discriminate|].
  assert (Hrest : udp_wait parse requestId rest = (Threw e, effs) ->
                  exists data, In (UdpMessage data) (ev :: rest) /\ parse data = inl e).
  { intros H. destruct (IH H) as (data & Hin & Hp).
    exists data. split; [right; exact Hin | exact Hp]. }
  destruct ev as [|data|[e'|]]; try discriminate; try exact Hrest.
  destruct (parse data) as [e'|r] eqn:Hp.
  - intros H. injection H as -> _. exists data. split; [left; reflexivity | exact Hp].
  - destruct (id r =? requestId); [discriminate | exact Hrest].
Qed.

(** *** The TCP phases *)

Lemma tcp_connect_wait_never_throws (evs : list TcpEvent) (st : FrameState)
      (e : Error) (effs : list Effect) :
  tcp_connect_wait parse st evs <> (Threw e, effs).
Proof.
  revert st. induction evs as [|ev rest IH]; intros st; cbn [tcp_connect_wait];
    [discriminate|].
  destruct ev as [[e'|]|e'| | |b|]; try discriminate; try apply IH.
  destruct (on_data parse st b) as [st' []]; try apply IH. discriminate.
Qed.

(** What the TCP promise can settle to: a fulfilment carries the query's
    id; a rejection is the timeout, never a connection error or a decode
    failure; no exception escapes. *)
Lemma tcp_wait_settles (packetId : Z) (evs : list TcpEvent) (st : FrameState)
      (o : Settled (Packet RR)) (effs : list Effect) :
  tcp_wait parse packetId st evs = (o, effs) ->
  match o with
  | Fulfilled response => id response = packetId
  | Failed e => e = "Timeout"%string
  | Threw _ => False
  | Waiting => True
  end.
Proof.
  revert st effs. induction evs as [|ev rest IH]; intros st effs; cbn [tcp_wait].
  - intros H. injection H as <- _. exact I.
  - destruct ev as [[e'|]|e'| | |b|]; try apply IH.
    + destruct (tcp_wait parse packetId st rest) as [o' l] eqn:E.
      intros H. injection H as <- _. exact (IH st l E).
    + destruct (on_data parse st b) as [st' [|response|e']]; try apply IH.
      * destruct (id response =? packetId) eqn:Hid; [|apply IH].
        intros H. injection H as <- _. apply Z.eqb_eq. exact Hid.
      * destruct (tcp_wait parse packetId st' rest) as [o' l] eqn:E.
        intros H. injection H as <- _. exact (IH st' l E).
    + intros H. injection H as <- _. reflexivity.
Qed.

(** Whatever an exchange is fulfilled with carries the transaction id of
    the query, over UDP and over TCP alike; and an answer delivered
    without a TCP connection is never a truncated one. *)
Theorem fulfilled_response_matches_query
        (host : string) (port : Z) (packet : Packet RR) (options : Options)
        (env : Env) (response : Packet RR) :
  outcome (client serialize parse host port packet options env)
  = Fulfilled response ->
  id response = id packet
  /\ (tcp_connects (effects (client serialize parse host port packet options env))
      = [] ->
      truncated response = false).
Proof.
  unfold client.
  destruct (lookup_result env) as [e | [address family]]; [discriminate|].
  destruct (createSocket_throws family); [discriminate|].
  destruct (send_throws port); [discriminate|].
  destruct (udp_wait parse (id packet) (udp_events env))
    as [[r | e | e |] udp_effs] eqn:Hudp; try discriminate.
  destruct (udp_wait_fulfilled _ _ _ _ Hudp) as [Hid ->].
  destruct (truncated r) eqn:Htc; cbn [negb].
  - destruct (tcp_connect_wait parse frame_init (tcp_events env))
      as [[[st rest] | e | e |] conn_effs]; try discriminate.
    destruct (tcp_wait parse (id packet) st rest) as [o tcp_effs] eqn:Htcp.
    cbn [outcome effects]. intros ->.
    split; [exact (tcp_wait_settles _ _ _ _ _ Htcp)|].
    rewrite !tcp_connects_app. cbn. discriminate.
  - cbn [outcome]. intros H. injection H as <-.
    split; [exact Hid | intros _; exact Htc].
Qed.

(** A TCP connection is opened at most once per exchange, and only after
    the UDP phase was answered by a truncated response; it goes to the
    address of the lookup and the port given to the client. *)
Theorem tcp_only_after_truncated_udp_answer
        (host : string) (port : Z) (packet : Packet RR) (options : Options)
        (env : Env) :
  tcp_connects (effects (client serialize parse host port packet options env)) = []
  \/ exists address family response udp_effs,
       lookup_result env = inr (address, family)
       /\ udp_wait parse (id packet) (udp_events env)
          = (Fulfilled response, udp_effs)
       /\ truncated response = true
       /\ tcp_connects (effects (client serialize parse host port packet options env))
          = [(port, address)].
Proof.
  unfold client.
  destruct (lookup_result env) as [e | [address family]]; [left; reflexivity|].
  destruct (createSocket_throws family); [left; reflexivity|].
  destruct (send_throws port); [left; reflexivity|].
  pose proof (udp_wait_teardown (id packet) (udp_events env)) as Hudp.
  destruct (udp_wait parse (id packet) (udp_events env))
    as [[r | e | e |] udp_effs]; cbn [snd] in Hudp;
    try (left; cbn [effects]; read_log; reflexivity).
  destruct (truncated r) eqn:Htc; cbn [negb];
    [| left; cbn [effects]; read_log; reflexivity].
  right. exists address, family, r, udp_effs.
  split; [reflexivity|]. split; [reflexivity|]. split; [exact Htc|].
  client_cases; read_log; reflexivity.
Qed.

(** Once the query has been written on the TCP connection, the exchange
    can only be rejected by its timer: the error is "Timeout" and
    [socket.end()] has been called.  Connection errors, an [end] from the
    peer and undecodable frames do not reject it. *)
Theorem tcp_phase_rejects_only_by_timeout
        (host : string) (port : Z) (packet : Packet RR) (options : Options)
        (env : Env) (e : Error) :
  outcome (client serialize parse host port packet options env) = Failed e ->
  tcp_writes (effects (client serialize parse host port packet options env)) <> [] ->
  e = "Timeout"%string
  /\ In ETcpEnd (effects (client serialize parse host port packet options env)).
Proof.
  unfold client.
  destruct (lookup_result env) as [e' | [address family]];
    [intros _ H; now contradiction H|].
  destruct (createSocket_throws family); [intros _ H; now contradiction H|].
  destruct (send_throws port); [intros _ H; now contradiction H|].
  pose proof (udp_wait_teardown (id packet) (udp_events env)) as Hudp.
  destruct (udp_wait parse (id packet) (udp_events env))
    as [[r | e' | e' |] udp_effs]; cbn [snd] in Hudp;
    try (intros _ H; exfalso; apply H; cbn [effects]; read_log; reflexivity).
  destruct (truncated r); cbn [negb];
    [| intros _ H; exfalso; apply H; cbn [effects]; read_log; reflexivity].
  pose proof (tcp_connect_wait_teardown (tcp_events env) frame_init) as Hconn.
  destruct (tcp_connect_wait parse frame_init (tcp_events env))
    as [[[st rest] | e' | e' |] conn_effs]; cbn [snd] in Hconn;
    try (intros _ H; exfalso; apply H; cbn [effects]; read_log; reflexivity).
  destruct (tcp_wait parse (id packet) st rest) as [o tcp_effs] eqn:Htcp.
  cbn [outcome effects]. intros -> _.
  split; [exact (tcp_wait_settles _ _ _ _ _ Htcp)|].
  rewrite !in_app_iff. do 5 right.
  exact (tcp_wait_failure_ends_socket _ _ _ _ _ Htcp).
Qed.

(** The rest of a frame, cut into reads in any way, reaches the
    ['packet'] listener as the decoded message; with the query's id it
    fulfils the promise at the read that completes the frame. *)
Lemma tcp_wait_rest_of_frame (packetId : Z) (msg : bytes) (p : Packet RR)
      (later : list TcpEvent) :
  blength msg <= 65535 ->
  parse msg = inr p ->
  id p = packetId ->
  forall (chunks : list bytes) (st : FrameState),
    frame msg = buffered st ++ concat chunks ->
    awaiting (blength msg) st ->
    blength (buffered st) < blength msg + 2 ->
    tcp_wait parse packetId st (map TcpData chunks ++ later)
    = (Fulfilled p, [EClearTimeout]).
Proof.
  intros Hlen Hparse Hid.
  induction chunks as [|b rest IH]; intros st Hsplit Haw Hshort.
  - cbn [concat] in Hsplit. rewrite app_nil_r in Hsplit.
    rewrite <- Hsplit, blength_frame in Hshort by exact Hlen. lia.
  - cbn [concat] in Hsplit. rewrite app_assoc in Hsplit.
    assert (Hread : 2 <= blength (buffered st ++ b) ->
                    readUInt16BE (buffered st ++ b) = blength msg)
      by (intros; eapply readUInt16BE_frame_prefix; eauto).
    assert (Htotal : blength (buffered st ++ b) + blength (concat rest)
                     = blength msg + 2)
      by (rewrite <- blength_app, <- Hsplit; apply blength_frame; exact Hlen).
    pose proof (blength_nonneg (concat rest)) as Hnn.
    pose proof (blength_nonneg msg) as Hmsg.
    cbn [map app tcp_wait].
    destruct (Z.eq_dec (blength (concat rest)) 0) as [Hdone | Hmore].
    + assert (Hnil : concat rest = [])
        by (destruct (concat rest);
            [reflexivity | unfold blength in Hdone; cbn in Hdone; lia]).
      rewrite Hnil, app_nil_r in Hsplit.
      rewrite (on_data_complete parse (blength msg) st b p); try assumption.
      * rewrite Hid, Z.eqb_refl. reflexivity.
      * apply Hread. lia.
      * lia.
      * rewrite <- Hsplit. rewrite slice_frame by exact Hlen. exact Hparse.
    + destruct (on_data_incomplete parse (blength msg) st b Haw Hread)
        as (st' & Hstep & Hbuf & Haw'); [lia|].
      rewrite Hstep. apply IH.
      * rewrite Hbuf. exact Hsplit.
      * exact Haw'.
      * rewrite Hbuf. lia.
Qed.

(** The whole escalation: a truncated answer over UDP, a connection that
    is established, and the framed answer arriving on it cut into reads in
    any way.  The client writes the length prefix and the query, and is
    fulfilled with the answer decoded from the frame. *)
Theorem truncated_exchange_returns_tcp_answer
        (host : string) (port : Z) (packet : Packet RR) (options : Options)
        (env : Env) (address : string) (family : Z)
        (first : Packet RR) (udp_effs : list Effect)
        (msg : bytes) (chunks : list bytes) (later : list TcpEvent)
        (response : Packet RR) :
  lookup_result env = inr (address, family) ->
  createSocket_throws family = None ->
  send_throws port = None ->
  udp_wait parse (id packet) (udp_events env) = (Fulfilled first, udp_effs) ->
  truncated first = true ->
  tcp_events env = TcpConnectCb None :: map TcpData chunks ++ later ->
  concat chunks = frame msg ->
  blength msg <= 65535 ->
  parse msg = inr response ->
  id response = id packet ->
  client serialize parse host port packet options env
  = mkRun [ELookup host; ESerialize; ESetTimeout (effective_timeout options);
           EUdpCreate family; EUdpSend (serialize packet) port address;
           EClearTimeout; EUdpClose;
           ETcpConnect port address;
           ESetTimeout (effective_timeout options); ESerialize;
           ETcpWrite (length_prefix (blength (serialize packet)));
           ETcpWrite (serialize packet);
           EClearTimeout]
          (Fulfilled response).
Proof.
  intros Hlookup Hcreate Hsend Hudp Htc Hevs Hcat Hlen Hparse Hid.
  destruct (udp_wait_fulfilled _ _ _ _ Hudp) as [_ ->].
  unfold client. rewrite Hlookup, Hcreate, Hsend, Hudp, Htc, Hevs. cbn [negb tcp_connect_wait].
  rewrite (tcp_wait_rest_of_frame (id packet) msg response later Hlen Hparse Hid
                                  chunks frame_init).
  - reflexivity.
  - cbn. symmetry. exact Hcat.
  - left. reflexivity.
  - cbn. pose proof (blength_nonneg msg). lia.
Qed.

(** *** Timers *)

Lemma udp_wait_clears (requestId : Z) (evs : list UdpEvent)
      (response : Packet RR) (effs : list Effect) :
  udp_wait parse requestId evs = (Fulfilled response, effs) ->
  count_effect is_clear_timeout effs = 1%nat.
Proof.
  intros H. destruct (udp_wait_fulfilled _ _ _ _ H) as [_ ->]. reflexivity.
Qed.

Lemma tcp_connect_wait_no_clear (evs : list TcpEvent) (st : FrameState) :
  count_effect is_clear_timeout (snd (tcp_connect_wait parse st evs)) = 0%nat.
Proof.
  revert st. induction evs as [|ev rest IH]; intros st; cbn [tcp_connect_wait];
    [reflexivity|].
  destruct ev as [[e|]|e| | |b|]; try reflexivity; try apply IH.
  destruct (on_data parse st b) as [st' []]; try apply IH. reflexivity.
Qed.

Lemma tcp_wait_clears (packetId : Z) (evs : list TcpEvent) (st : FrameState)
      (response : Packet RR) (effs : list Effect) :
  tcp_wait parse packetId st evs = (Fulfilled response, effs) ->
  count_effect is_clear_timeout effs = 1%nat.
Proof.
  revert st effs. induction evs as [|ev rest IH]; intros st effs; cbn [tcp_wait];
    [discriminate|].
  destruct ev as [[e'|]|e'| | |b|]; try apply IH; try discriminate.
  - destruct (tcp_wait parse packetId st rest) as [o l] eqn:E.
    intros H. injection H as -> <-. exact (IH st l E).
  - destruct (on_data parse st b) as [st' [|r|e']]; try apply IH.
    + destruct (id r =? packetId); [|apply IH].
      intros H. injection H as _ <-. reflexivity.
    + destruct (tcp_wait parse packetId st' rest) as [o l] eqn:E.
      intros H. injection H as -> <-. exact (IH st' l E).
Qed.

Lemma set_timeout_teardown (l : list Effect) :
  teardown_only l -> count_effect is_set_timeout l = 0%nat.
Proof.
  intros H. unfold count_effect. rewrite filter_teardown; [reflexivity| |exact H].
  intros []; easy.
Qed.

Lemma count_effect_app (f : Effect -> bool) (a b : list Effect) :
  count_effect f (a ++ b) = (count_effect f a + count_effect f b)%nat.
Proof. unfold count_effect. now rewrite filter_app, length_app. Qed.

(** When an exchange is fulfilled, every timer it armed has been cleared:
    one over UDP, two when it escalated to TCP. *)
Theorem fulfilled_exchange_leaves_no_timer
        (host : string) (port : Z) (packet : Packet RR) (options : Options)
        (env : Env) (response : Packet RR) :
  outcome (client serialize parse host port packet options env)
  = Fulfilled response ->
  count_effect is_clear_timeout
               (effects (client serialize parse host port packet options env))
  = count_effect is_set_timeout
                 (effects (client serialize parse host port packet options env)).
Proof.
  unfold client.
  destruct (lookup_result env) as [e | [address family]]; [discriminate|].
  destruct (createSocket_throws family); [discriminate|].
  destruct (send_throws port); [discriminate|].
  pose proof (udp_wait_teardown (id packet) (udp_events env)) as Hudp_t.
  destruct (udp_wait parse (id packet) (udp_events env))
    as [[r | e | e |] udp_effs] eqn:Hudp; cbn [snd] in Hudp_t; try discriminate.
  pose proof (udp_wait_clears _ _ _ _ Hudp) as Hclear.
  destruct (truncated r); cbn [negb].
  - pose proof (tcp_connect_wait_teardown (tcp_events env) frame_init) as Hconn_t.
    pose proof (tcp_connect_wait_no_clear (tcp_events env) frame_init) as Hconn.
    destruct (tcp_connect_wait parse frame_init (tcp_events env))
      as [[[st rest] | e | e |] conn_effs]; cbn [snd] in Hconn_t, Hconn;
      try discriminate.
    pose proof (tcp_wait_teardown (id packet) rest st) as Htcp_t.
    destruct (tcp_wait parse (id packet) st rest) as [o tcp_effs] eqn:Htcp.
    cbn [snd] in Htcp_t. cbn [outcome effects]. intros ->.
    rewrite !count_effect_app.
    rewrite (tcp_wait_clears _ _ _ _ _ Htcp), Hclear, Hconn.
    rewrite (set_timeout_teardown _ Hudp_t), (set_timeout_teardown _ Hconn_t),
      (set_timeout_teardown _ Htcp_t).
    reflexivity.
  - cbn [outcome effects]. intros _.
    rewrite !count_effect_app, Hclear, (set_timeout_teardown _ Hudp_t).
    reflexivity.
Qed.

(** A connection that fails before it is established rejects the exchange
    with the socket's error after [socket.end()]; the query is not
    serialized a second time, nothing is written and no TCP timer is
    armed. *)
Theorem tcp_connect_error_rejects
        (host : string) (port : Z) (packet : Packet RR) (options : Options)
        (env : Env) (address : string) (family : Z)
        (first : Packet RR) (udp_effs : list Effect)
        (e : Error) (later : list TcpEvent) :
  lookup_result env = inr (address, family) ->
  createSocket_throws family = None ->
  send_throws port = None ->
  udp_wait parse (id packet) (udp_events env) = (Fulfilled first, udp_effs) ->
  truncated first = true ->
  tcp_events env = TcpError e :: later ->
  client serialize parse host port packet options env
  = mkRun [ELookup host; ESerialize; ESetTimeout (effective_timeout options);
           EUdpCreate family; EUdpSend (serialize packet) port address;
           EClearTimeout; EUdpClose;
           ETcpConnect port address; ETcpEnd]
          (Failed e).
Proof.
  intros Hlookup Hcreate Hsend Hudp Htc Hevs.
  destruct (udp_wait_fulfilled _ _ _ _ Hudp) as [_ ->].
  unfold client. rewrite Hlookup, Hcreate, Hsend, Hudp, Htc, Hevs. reflexivity.
Qed.

(** *** Socket calls that throw *)

(** A lookup that reports a family other than 4 or 6: [createSocket]
    throws, and the exchange is rejected with its error before any socket
    exists or anything is sent.  The timer armed just before is not
    cleared.  The script of events plays no part. *)
Theorem unknown_family_rejects_before_socket
        (host : string) (port : Z) (packet : Packet RR) (options : Options)
        (env : Env) (address : string) (family : Z) :
  lookup_result env = inr (address, family) ->
  family <> 4 ->
  family <> 6 ->
  client serialize parse host port packet options env
  = mkRun [ELookup host; ESerialize; ESetTimeout (effective_timeout options)]
          (Failed "ERR_SOCKET_BAD_TYPE"%string).
Proof.
  intros Hlookup H4 H6. unfold client, createSocket_throws. rewrite Hlookup.
  apply Z.eqb_neq in H4, H6. rewrite H4, H6. reflexivity.
Qed.

(** A port outside 1..65535 with a family of 4 or 6: the socket is
    created, [send] throws, and the exchange is rejected with its error
    at once.  Neither [clearTimeout] nor [socket.close()] is called: the
    exchange ends with the socket open and the timer armed. *)
Theorem bad_port_rejects_with_socket_open
        (host : string) (port : Z) (packet : Packet RR) (options : Options)
        (env : Env) (address : string) (family : Z) :
  lookup_result env = inr (address, family) ->
  family = 4 \/ family = 6 ->
  port < 1 \/ 65535 < port ->
  client serialize parse host port packet options env
  = mkRun [ELookup host; ESerialize; ESetTimeout (effective_timeout options);
           EUdpCreate family]
          (Failed "ERR_SOCKET_BAD_PORT"%string)
  /\ udp_left_open (effects (client serialize parse host port packet options env))
     = true.
Proof.
  intros Hlookup Hfamily Hport.
  assert (Hcreate : createSocket_throws family = None)
    by (destruct Hfamily as [-> | ->]; reflexivity).
  assert (Hsend : send_throws port = Some "ERR_SOCKET_BAD_PORT"%string).
  { unfold send_throws.
    destruct ((1 <=? port) && (port <=? 65535)) eqn:Hok; [|reflexivity].
    apply andb_true_iff in Hok as [Hlo Hhi].
    apply Z.leb_le in Hlo, Hhi. lia. }
  unfold client. rewrite Hlookup, Hcreate, Hsend. split; reflexivity.
Qed.

End ClientFacts.

(** ** The transport client on concrete exchanges *)

(** C2 (the code departs from the claim): a datagram of two bytes does not
    decode; [Packet.parse] throws inside the ['message'] listener, which has
    no [try], so the exception leaves the client uncaught.  The datagram is
    not dropped: the matching answer that follows it is never considered,
    the timer is not cleared and the socket is not closed. *)
Theorem malformed_datagram_escapes_listener :
  sample_parse [1; 2] = inl "Header too short"%string
  /\ client sample_serialize sample_parse "ns1" 53 sample_query OptUndefined
            env_malformed_datagram
     = mkRun [ELookup "ns1"; ESerialize; ESetTimeout 3000; EUdpCreate 4;
              EUdpSend [0; 7; 0; 0] 53 "192.0.2.1"]
             (Threw "Header too short"%string)
  /\ udp_left_open
       (effects (client sample_serialize sample_parse "ns1" 53 sample_query
                        OptUndefined env_malformed_datagram))
     = true.
Proof. repeat split. Qed.

(** C3 (the code departs from the claim): an exchange that is answered
    over TCP.  The promise is fulfilled with the answer, and the log ends
    with [clearTimeout]: [socket.end()] is never called on the connection
    and no event has terminated it, so the connection outlives the
    exchange. *)
Theorem tcp_answer_leaves_connection_open :
  client sample_serialize sample_parse "ns1" 53 sample_query OptUndefined
         env_tcp_answer
  = mkRun [ELookup "ns1"; ESerialize; ESetTimeout 3000; EUdpCreate 4;
           EUdpSend [0; 7; 0; 0] 53 "192.0.2.1"; EClearTimeout; EUdpClose;
           ETcpConnect 53 "192.0.2.1"; ESetTimeout 3000; ESerialize;
           ETcpWrite [0; 4]; ETcpWrite [0; 7; 0; 0]; EClearTimeout]
          (Fulfilled sample_answer)
  /\ tcp_left_open
       (effects (client sample_serialize sample_parse "ns1" 53 sample_query
                        OptUndefined env_tcp_answer))
       (tcp_events env_tcp_answer)
     = true.
Proof. split; reflexivity. Qed.

(** C5, as stated, fails: on an exchange that escalates to TCP
    [Packet.serialize] is called twice, not once. *)
Lemma escalation_serializes_twice :
  serialize_count
    (effects (client sample_serialize sample_parse "ns1" 53 sample_query
                     OptUndefined env_tcp_answer))
  <> 1%nat.
Proof. vm_compute. discriminate. Qed.

(** C8, as stated, fails: a [timeout] option of 0 is an integer that is
    not positive, and the client uses it instead of 3000. *)
Lemma zero_timeout_is_used :
  effective_timeout (OptObject (Js.Num (Js.NumInt 0))) = 0
  /\ effective_timeout (OptObject (Js.Num (Js.NumInt 0)))
     <> spec_timeout (OptObject (Js.Num (Js.NumInt 0))).
Proof. split; [reflexivity | vm_compute; discriminate]. Qed.

Lemma truncation_decides_tcp_escalation_witness :
  (truncated sample_truncated = false ->
     outcome (client sample_serialize sample_parse "ns1" 53 sample_query
                     OptUndefined env_tcp_answer)
     = Fulfilled sample_truncated
     /\ tcp_connects (effects (client sample_serialize sample_parse "ns1" 53
                                      sample_query OptUndefined env_tcp_answer))
        = [])
  /\ (truncated sample_truncated = true ->
        tcp_connects (effects (client sample_serialize sample_parse "ns1" 53
                                      sample_query OptUndefined env_tcp_answer))
        = [(53, "192.0.2.1"%string)]
        /\ udp_sends (effects (client sample_serialize sample_parse "ns1" 53
                                      sample_query OptUndefined env_tcp_answer))
           = [(sample_serialize sample_query, 53, "192.0.2.1"%string)]).
Proof.
  apply (truncation_decides_tcp_escalation
           sample_serialize sample_parse "ns1" 53 sample_query OptUndefined
           env_tcp_answer "192.0.2.1" 4 sample_truncated
           [EClearTimeout; EUdpClose]); reflexivity.
Defined.

Lemma query_serialized_for_each_send_witness :
  udp_sends (effects (client sample_serialize sample_parse "ns1" 53 sample_query
                             OptUndefined env_tcp_answer))
  = [(sample_serialize sample_query, 53, "192.0.2.1"%string)]
  /\ serialize_count (effects (client sample_serialize sample_parse "ns1" 53
                                      sample_query OptUndefined env_tcp_answer))
     = 2%nat
  /\ tcp_writes (effects (client sample_serialize sample_parse "ns1" 53
                                 sample_query OptUndefined env_tcp_answer))
     = [length_prefix (blength (sample_serialize sample_query));
        sample_serialize sample_query].
Proof.
  destruct (query_serialized_for_each_send
              sample_serialize sample_parse "ns1" 53 sample_query OptUndefined
              env_tcp_answer "192.0.2.1" 4 eq_refl)
    as (Hdatagram & Hsecond & _).
  split.
  - apply Hdatagram; reflexivity.
  - apply (Hsecond sample_truncated [EClearTimeout; EUdpClose] frame_init
                   [TcpData [0]; TcpData (6 :: sample_serialize sample_answer)]
                   []);
      reflexivity.
Defined.

Lemma timeout_is_integer_option_or_default_witness :
  effective_timeout (OptObject (Js.Num (Js.NumInt (-5)))) = -5
  /\ effective_timeout (OptObject (Js.Str "soon")) = 3000.
Proof.
  split.
  - apply (proj1 (timeout_is_integer_option_or_default
                    sample_serialize sample_parse "ns1" 53 sample_query
                    (OptObject (Js.Num (Js.NumInt (-5)))) env_udp_answer)).
    reflexivity.
  - apply (proj1 (proj2 (timeout_is_integer_option_or_default
                           sample_serialize sample_parse "ns1" 53 sample_query
                           (OptObject (Js.Str "soon")) env_udp_answer))).
    reflexivity.
Defined.

(** ** The forwarding middleware *)

Section ForwardFacts.

Context {RR : Type}.
Variable serialize : Packet RR -> bytes.
Variable parse : bytes -> Error + Packet RR.

Lemma push_all_app (dst src : list RR) : push_all dst src = dst ++ src.
Proof.
  unfold push_all. revert dst.
  induction src as [|x src IH]; intros dst; cbn [fold_left].
  - now rewrite app_nil_r.
  - rewrite IH, <- app_assoc. reflexivity.
Qed.

(** Every client call of the middleware is made with the server name,
    port 53, the request packet and no options. *)
Lemma tryForward_calls (req : Packet RR) (envs : nat -> Env)
      (servers : list string) (i : nat) (call : ClientCall RR) :
  In call (snd (tryForward serialize parse req envs servers i)) ->
  exists host j,
    In host servers
    /\ call = mkCall host 53 OptUndefined
                     (client serialize parse host 53 req OptUndefined (envs j)).
Proof.
  revert i. induction servers as [|value rest IH]; intros i; cbn [tryForward].
  - intros [].
  - assert (Hhere : exists host j,
               In host (value :: rest)
               /\ mkCall value 53 OptUndefined
                        (client serialize parse value 53 req OptUndefined (envs i))
                  = mkCall host 53 OptUndefined
                           (client serialize parse host 53 req OptUndefined (envs j)))
      by (exists value, i; split; [left; reflexivity | reflexivity]).
    destruct (outcome (client serialize parse value 53 req OptUndefined (envs i))).
    + intros [<- | []]. exact Hhere.
    + specialize (IH (S i)).
      destruct (tryForward serialize parse req envs rest (S i)) as [o more].
      cbn [snd] in *. intros [<- | Hin]; [exact Hhere|].
      destruct (IH Hin) as (host & j & Hhost & Hcall).
      exists host, j. split; [right; exact Hhost | exact Hcall].
    + intros [<- | []]. exact Hhere.
    + intros [<- | []]. exact Hhere.
Qed.

(** When every exchange is rejected the chain ends rejected with the
    exhaustion error, after one call per server, in order. *)
Lemma tryForward_all_rejected (req : Packet RR) (envs : nat -> Env)
      (servers : list string) (k : nat) :
  (forall i host, nth_error servers i = Some host ->
     exists e, outcome (client serialize parse host 53 req OptUndefined
                               (envs (k + i)%nat)) = Failed e) ->
  fst (tryForward serialize parse req envs servers k)
  = Failed "No more servers to try"%string
  /\ map call_host (snd (tryForward serialize parse req envs servers k)) = servers.
Proof.
  revert k. induction servers as [|value rest IH]; intros k Hall; cbn [tryForward].
  - split; reflexivity.
  - destruct (Hall 0%nat value eq_refl) as [e He].
    rewrite Nat.add_0_r in He. rewrite He.
    destruct (IH (S k)) as [Hfst Hsnd].
    { intros i host Hnth. specialize (Hall (S i) host Hnth).
      now rewrite Nat.add_succ_r in Hall. }
    destruct (tryForward serialize parse req envs rest (S k)) as [o more].
    cbn [fst snd map call_host] in *. split; [exact Hfst | now rewrite Hsnd].
Qed.

(** C6: if the exchange with every server of the list is rejected, the
    middleware calls [next] once, with the error "No more servers to
    try", and [res.packet] is what it was. *)
Theorem exhausted_servers_reach_error_continuation
        (forwarders : Forwarders) (req res : Packet RR)
        (next_throws : option Error) (envs : nat -> Env) :
  (forall i host, nth_error (server_list forwarders) i = Some host ->
     exists e, outcome (client serialize parse host 53 req OptUndefined (envs i))
               = Failed e) ->
  next_calls (forward serialize parse forwarders req res next_throws envs)
  = [Some "No more servers to try"%string]
  /\ res_packet (forward serialize parse forwarders req res next_throws envs) = res.
Proof.
  intros Hall. unfold forward.
  destruct (tryForward_all_rejected req envs (server_list forwarders) 0 Hall)
    as [Hfst _].
  destruct (tryForward serialize parse req envs (server_list forwarders) 0)
    as [o cs].
  cbn [fst] in Hfst. subst o. split; reflexivity.
Qed.

(** C7: when the chain of exchanges is fulfilled with a result, the
    response packet afterwards has the result's rcode, and each of its
    three record lists is the list it had before followed by the
    result's. *)
Theorem success_overwrites_rcode_and_appends
        (forwarders : Forwarders) (req res : Packet RR)
        (next_throws : option Error) (envs : nat -> Env) (result : Packet RR) :
  fst (tryForward serialize parse req envs (server_list forwarders) 0)
  = Fulfilled result ->
  rcode (res_packet (forward serialize parse forwarders req res next_throws envs))
  = rcode result
  /\ answer (res_packet (forward serialize parse forwarders req res next_throws envs))
     = answer res ++ answer result
  /\ authority (res_packet (forward serialize parse forwarders req res next_throws envs))
     = authority res ++ authority result
  /\ additional (res_packet (forward serialize parse forwarders req res next_throws envs))
     = additional res ++ additional result.
Proof.
  intros Hok. unfold forward.
  destruct (tryForward serialize parse req envs (server_list forwarders) 0)
    as [o cs].
  cbn [fst] in Hok. subst o.
  destruct next_throws; cbn [res_packet success rcode answer authority additional];
    rewrite !push_all_app; repeat split.
Qed.

(** C9: every client call the middleware makes goes to port 53 without
    options, whatever the server list is, so its timeout is 3000
    milliseconds.  In the exchange of that call every timer armed has a
    delay of 3000, and one is armed per phase: when the lookup succeeds
    the UDP phase is armed with 3000, and when the query is written on a
    TCP connection a second timer of 3000 is armed for the TCP phase. *)
Theorem forwarded_exchanges_use_default_timeout
        (forwarders : Forwarders) (req res : Packet RR)
        (next_throws : option Error) (envs : nat -> Env) (call : ClientCall RR) :
  In call (calls (forward serialize parse forwarders req res next_throws envs)) ->
  call_port call = 53
  /\ call_options call = OptUndefined
  /\ effective_timeout (call_options call) = 3000
  /\ Forall (fun ms => ms = 3000) (timeouts (effects (call_run call)))
  /\ exists j,
       call_run call
       = client serialize parse (call_host call) 53 req OptUndefined (envs j)
       /\ (forall address family,
             lookup_result (envs j) = inr (address, family) ->
             timeouts (effects (call_run call))
             = match tcp_writes (effects (call_run call)) with
               | [] => [3000]
               | _ :: _ => [3000; 3000]
               end).
Proof.
  intros Hin.
  assert (Hcs : In call (snd (tryForward serialize parse req envs
                                        (server_list forwarders) 0))).
  { unfold forward in Hin.
    destruct (tryForward serialize parse req envs (server_list forwarders) 0)
      as [[result | e | e |] cs]; cbn [snd]; try exact Hin.
    destruct next_throws; exact Hin. }
  destruct (tryForward_calls req envs _ _ call Hcs) as (host & j & _ & ->).
  cbn [call_port call_options call_run call_host].
  repeat split.
  - apply (client_timeouts serialize parse host 53 req OptUndefined (envs j)).
  - exists j. split; [reflexivity|].
    intros address family Hlookup.
    exact (client_arms_timer_per_phase serialize parse host 53 req OptUndefined
                                       (envs j) address family Hlookup).
Qed.

(** C10: with an empty server list the middleware makes no client call,
    leaves [res.packet] as it was, and calls [next] once with the error
    "No more servers to try". *)
Theorem empty_server_list_fails_at_once
        (forwarders : Forwarders) (req res : Packet RR)
        (next_throws : option Error) (envs : nat -> Env) :
  server_list forwarders = [] ->
  calls (forward serialize parse forwarders req res next_throws envs) = []
  /\ res_packet (forward serialize parse forwarders req res next_throws envs) = res
  /\ next_calls (forward serialize parse forwarders req res next_throws envs)
     = [Some "No more servers to try"%string].
Proof.
  intros Hempty. unfold forward. rewrite Hempty. cbn [tryForward].
  repeat split.
Qed.

(** *** Fallback through the server list *)

Lemma tryForward_first_success (req : Packet RR) (envs : nat -> Env)
      (pre post : list string) (s : string) (result : Packet RR) (k : nat) :
  (forall i host, nth_error pre i = Some host ->
     exists e, outcome (client serialize parse host 53 req OptUndefined
                               (envs (k + i)%nat)) = Failed e) ->
  outcome (client serialize parse s 53 req OptUndefined
                  (envs (k + List.length pre)%nat)) = Fulfilled result ->
  fst (tryForward serialize parse req envs (pre ++ s :: post) k) = Fulfilled result
  /\ map call_host (snd (tryForward serialize parse req envs (pre ++ s :: post) k))
     = pre ++ [s].
Proof.
  revert k. induction pre as [|value pre IH]; intros k Hpre Hok;
    cbn [app tryForward].
  - cbn [List.length] in Hok. rewrite Nat.add_0_r in Hok. rewrite Hok.
    split; reflexivity.
  - destruct (Hpre 0%nat value eq_refl) as [e He].
    rewrite Nat.add_0_r in He. rewrite He.
    destruct (IH (S k)) as [Hfst Hsnd].
    { intros i host Hnth. specialize (Hpre (S i) host Hnth).
      now rewrite Nat.add_succ_r in Hpre. }
    { cbn [List.length] in Hok. now rewrite Nat.add_succ_r in Hok. }
    destruct (tryForward serialize parse req envs (pre ++ s :: post) (S k))
      as [o more].
    cbn [fst snd map call_host] in *. split; [exact Hfst | now rewrite Hsnd].
Qed.

(** The first server whose exchange is fulfilled decides the response:
    the servers before it were each tried once, in order, and their errors
    are not passed on; the servers after it are never contacted; the
    response takes the result's rcode and records; [next] is called
    without an error. *)
Theorem first_answering_server_wins
        (forwarders : Forwarders) (req res : Packet RR) (envs : nat -> Env)
        (pre post : list string) (s : string) (result : Packet RR) :
  server_list forwarders = pre ++ s :: post ->
  (forall i host, nth_error pre i = Some host ->
     exists e, outcome (client serialize parse host 53 req OptUndefined (envs i))
               = Failed e) ->
  outcome (client serialize parse s 53 req OptUndefined (envs (List.length pre)))
  = Fulfilled result ->
  map call_host (calls (forward serialize parse forwarders req res None envs))
  = pre ++ [s]
  /\ next_calls (forward serialize parse forwarders req res None envs) = [None]
  /\ rcode (res_packet (forward serialize parse forwarders req res None envs))
     = rcode result
  /\ answer (res_packet (forward serialize parse forwarders req res None envs))
     = answer res ++ answer result
  /\ authority (res_packet (forward serialize parse forwarders req res None envs))
     = authority res ++ authority result
  /\ additional (res_packet (forward serialize parse forwarders req res None envs))
     = additional res ++ additional result.
Proof.
  intros Hlist Hpre Hok. unfold forward. rewrite Hlist.
  destruct (tryForward_first_success req envs pre post s result 0 Hpre Hok)
    as [Hfst Hsnd].
  destruct (tryForward serialize parse req envs (pre ++ s :: post) 0) as [o cs].
  cbn [fst snd] in Hfst, Hsnd. subst o.
  cbn [calls next_calls res_packet success rcode answer authority additional].
  rewrite !push_all_app. repeat split. exact Hsnd.
Qed.

(** The calls made so far are the beginning of the server list, and every
    call but the last one was rejected. *)
Lemma tryForward_in_order (req : Packet RR) (envs : nat -> Env)
      (servers : list string) (k : nat) :
  (exists rest,
      servers = map call_host (snd (tryForward serialize parse req envs servers k))
                ++ rest)
  /\ Forall (fun c => exists e, outcome (call_run c) = Failed e)
            (removelast (snd (tryForward serialize parse req envs servers k))).
Proof.
  revert k. induction servers as [|value rest IH]; intros k; cbn [tryForward].
  - split; [exists []; reflexivity | constructor].
  - destruct (outcome (client serialize parse value 53 req OptUndefined (envs k)))
      as [result | e | e |] eqn:Hout;
      try (split; [exists rest; reflexivity | constructor]).
    destruct (IH (S k)) as [[tail Htail] Hrej].
    destruct (tryForward serialize parse req envs rest (S k)) as [o more].
    cbn [snd map call_host] in *. split.
    + exists tail. cbn [app]. now rewrite <- Htail.
    + destruct more as [|c more']; [constructor|].
      change (removelast (?a :: c :: more')) with (a :: removelast (c :: more')).
      constructor; [|exact Hrej].
      cbn [call_run]. exists e. exact Hout.
Qed.

(** Servers are tried strictly in the order of the list, each at most
    once, and a server is tried only after every server before it was
    rejected. *)
Theorem servers_tried_in_list_order
        (forwarders : Forwarders) (req res : Packet RR)
        (next_throws : option Error) (envs : nat -> Env) :
  (exists rest,
      server_list forwarders
      = map call_host (calls (forward serialize parse forwarders req res
                                      next_throws envs)) ++ rest)
  /\ Forall (fun c => exists e, outcome (call_run c) = Failed e)
            (removelast (calls (forward serialize parse forwarders req res
                                        next_throws envs))).
Proof.
  unfold forward.
  pose proof (tryForward_in_order req envs (server_list forwarders) 0) as H.
  destruct (tryForward serialize parse req envs (server_list forwarders) 0)
    as [[result | e | e |] cs]; cbn [snd] in H; try exact H.
  destruct next_throws; exact H.
Qed.

Lemma tryForward_rejected (req : Packet RR) (envs : nat -> Env)
      (servers : list string) (k : nat) (e : Error) :
  fst (tryForward serialize parse req envs servers k) = Failed e ->
  e = "No more servers to try"%string
  /\ map call_host (snd (tryForward serialize parse req envs servers k)) = servers
  /\ Forall (fun c => exists e', outcome (call_run c) = Failed e')
            (snd (tryForward serialize parse req envs servers k)).
Proof.
  revert k. induction servers as [|value rest IH]; intros k; cbn [tryForward].
  - cbn [fst]. intros H. injection H as <-. repeat split. constructor.
  - destruct (outcome (client serialize parse value 53 req OptUndefined (envs k)))
      as [result | e' | e' |] eqn:Hout; try discriminate.
    specialize (IH (S k)).
    destruct (tryForward serialize parse req envs rest (S k)) as [o more].
    cbn [fst snd map call_host] in *. intros Ho.
    destruct (IH Ho) as (He & Hhosts & Hall).
    split; [exact He|]. split; [now rewrite Hhosts|].
    constructor; [|exact Hall]. cbn [call_run]. exists e'. exact Hout.
Qed.

(** An error reaches the pipeline only as exhaustion: when [next] itself
    does not throw, any error it is called with is "No more servers to
    try", every server of the list has then been tried and rejected, and
    the response packet is untouched.  The errors of the single servers
    are never passed on. *)
Theorem error_continuation_only_on_exhaustion
        (forwarders : Forwarders) (req res : Packet RR) (envs : nat -> Env)
        (e : Error) :
  In (Some e) (next_calls (forward serialize parse forwarders req res None envs)) ->
  e = "No more servers to try"%string
  /\ next_calls (forward serialize parse forwarders req res None envs) = [Some e]
  /\ res_packet (forward serialize parse forwarders req res None envs) = res
  /\ map call_host (calls (forward serialize parse forwarders req res None envs))
     = server_list forwarders
  /\ Forall (fun c => exists e', outcome (call_run c) = Failed e')
            (calls (forward serialize parse forwarders req res None envs)).
Proof.
  unfold forward.
  pose proof (tryForward_rejected req envs (server_list forwarders) 0) as H.
  destruct (tryForward serialize parse req envs (server_list forwarders) 0)
    as [[result | e0 | e0 |] cs]; cbn [fst snd] in H;
    cbn [next_calls res_packet calls].
  - intros [Hin | []]. discriminate.
  - intros [Hin | []]. injection Hin as ->.
    destruct (H e eq_refl) as (He & Hhosts & Hall).
    repeat split; assumption.
  - intros [].
  - intros [].
Qed.

End ForwardFacts.

Lemma exhausted_servers_reach_error_continuation_witness :
  next_calls (forward sample_serialize sample_parse (ServerList ["a"; "b"]%string)
                      sample_query sample_response None envs_all_fail)
  = [Some "No more servers to try"%string]
  /\ res_packet (forward sample_serialize sample_parse (ServerList ["a"; "b"]%string)
                         sample_query sample_response None envs_all_fail)
     = sample_response.
Proof.
  apply (exhausted_servers_reach_error_continuation
           sample_serialize sample_parse (ServerList ["a"; "b"]%string)
           sample_query sample_response None envs_all_fail).
  intros [|[|[|i]]] host H; cbn in H; try discriminate.
  - exists "ENOTFOUND"%string. injection H as <-. reflexivity.
  - exists "Timeout"%string. injection H as <-. reflexivity.
Defined.

Lemma success_overwrites_rcode_and_appends_witness :
  rcode (res_packet (forward sample_serialize sample_parse
                             (ServerList ["a"; "b"]%string)
                             sample_query sample_response None envs_second_answers))
  = 0
  /\ answer (res_packet (forward sample_serialize sample_parse
                                 (ServerList ["a"; "b"]%string)
                                 sample_query sample_response None envs_second_answers))
     = [1] ++ [10; 20]
  /\ authority (res_packet (forward sample_serialize sample_parse
                                    (ServerList ["a"; "b"]%string)
                                    sample_query sample_response None envs_second_answers))
     = [2] ++ []
  /\ additional (res_packet (forward sample_serialize sample_parse
                                     (ServerList ["a"; "b"]%string)
                                     sample_query sample_response None envs_second_answers))
     = [3] ++ [].
Proof.
  apply (success_overwrites_rcode_and_appends
           sample_serialize sample_parse (ServerList ["a"; "b"]%string)
           sample_query sample_response None envs_second_answers sample_answer).
  reflexivity.
Defined.

Lemma forwarded_exchanges_use_default_timeout_witness :
  call_port (mkCall "b" 53 OptUndefined
                    (client sample_serialize sample_parse "b" 53 sample_query
                            OptUndefined env_tcp_answer))
  = 53
  /\ call_options (mkCall "b" 53 OptUndefined
                    (client sample_serialize sample_parse "b" 53 sample_query
                            OptUndefined env_tcp_answer))
     = OptUndefined
  /\ effective_timeout (call_options (mkCall "b" 53 OptUndefined
                    (client sample_serialize sample_parse "b" 53 sample_query
                            OptUndefined env_tcp_answer)))
     = 3000
  /\ Forall (fun ms => ms = 3000)
            (timeouts (effects (call_run (mkCall "b" 53 OptUndefined
                    (client sample_serialize sample_parse "b" 53 sample_query
                            OptUndefined env_tcp_answer)))))
  /\ exists j,
       call_run (mkCall "b" 53 OptUndefined
                    (client sample_serialize sample_parse "b" 53 sample_query
                            OptUndefined env_tcp_answer))
       = client sample_serialize sample_parse (call_host (mkCall "b" 53 OptUndefined
                    (client sample_serialize sample_parse "b" 53 sample_query
                            OptUndefined env_tcp_answer)))
                53 sample_query OptUndefined (envs_second_answers j)
       /\ (forall address family,
             lookup_result (envs_second_answers j) = inr (address, family) ->
             timeouts (effects (call_run (mkCall "b" 53 OptUndefined
                    (client sample_serialize sample_parse "b" 53 sample_query
                            OptUndefined env_tcp_answer))))
             = match tcp_writes (effects (call_run (mkCall "b" 53 OptUndefined
                    (client sample_serialize sample_parse "b" 53 sample_query
                            OptUndefined env_tcp_answer)))) with
               | [] => [3000]
               | _ :: _ => [3000; 3000]
               end).
Proof.
  apply (forwarded_exchanges_use_default_timeout
           sample_serialize sample_parse (ServerList ["a"; "b"]%string)
           sample_query sample_response None envs_second_answers).
  right. left. reflexivity.
Defined.

Lemma empty_server_list_fails_at_once_witness :
  calls (forward sample_serialize sample_parse (ServerList []) sample_query
                 sample_response None envs_all_fail) = []
  /\ res_packet (forward sample_serialize sample_parse (ServerList []) sample_query
                         sample_response None envs_all_fail) = sample_response
  /\ next_calls (forward sample_serialize sample_parse (ServerList []) sample_query
                         sample_response None envs_all_fail)
     = [Some "No more servers to try"%string].
Proof.
  apply (empty_server_list_fails_at_once
           sample_serialize sample_parse (ServerList []) sample_query
           sample_response None envs_all_fail).
  reflexivity.
Defined.

(** ** The length prefix beyond 16 bits *)

(** The prefix the client writes announces the length of the message
    modulo 65536: a message of 65536 bytes or more is framed with a length
    that is too small. *)
Theorem frame_announces_length_mod_65536 (msg : bytes) :
  readUInt16BE (frame msg) = blength msg mod 65536.
Proof.
  pose proof (blength_nonneg msg) as Hnn.
  unfold frame, length_prefix, Buffer_from. cbn [map app readUInt16BE].
  set (len := blength msg) in *.
  change 255 with (Z.ones 8). change 0xff00 with (Z.shiftl (Z.ones 8) 8).
  rewrite Z.shiftr_land, Z.shiftr_shiftl_l by lia.
  replace (8 - 8) with 0 by lia. rewrite Z.shiftl_0_r.
  rewrite !Z.land_ones, Z.shiftr_div_pow2 by lia.
  change (2 ^ 8) with 256. rewrite !Z.mod_mod by lia.
  change 65536 with (256 * 256).
  rewrite Z.rem_mul_r by lia. lia.
Qed.

(** ** Instances on the sample exchanges *)

Lemma matching_datagram_after_strays_is_returned_witness :
  client sample_serialize sample_parse "ns1" 53 sample_query OptUndefined
         env_udp_answer
  = mkRun [ELookup "ns1"; ESerialize; ESetTimeout 3000; EUdpCreate 4;
           EUdpSend [0; 7; 0; 0] 53 "192.0.2.1"; EClearTimeout; EUdpClose]
          (Fulfilled sample_answer).
Proof.
  apply (matching_datagram_after_strays_is_returned
           sample_serialize sample_parse "ns1" 53 sample_query OptUndefined
           env_udp_answer "192.0.2.1" 4
           [UdpSendDone None; UdpMessage (sample_serialize sample_stray)] []
           (sample_serialize sample_answer) sample_answer);
    reflexivity.
Defined.

Lemma udp_timer_rejects_with_timeout_witness :
  client sample_serialize sample_parse "ns2" 53 sample_query OptUndefined env_silent
  = mkRun [ELookup "ns2"; ESerialize; ESetTimeout 3000; EUdpCreate 4;
           EUdpSend [0; 7; 0; 0] 53 "192.0.2.2"; EUdpClose]
          (Failed "Timeout"%string).
Proof.
  apply (udp_timer_rejects_with_timeout
           sample_serialize sample_parse "ns2" 53 sample_query OptUndefined
           env_silent "192.0.2.2" 4 [UdpSendDone None] []);
    reflexivity.
Defined.

Lemma udp_send_error_rejects_witness :
  client sample_serialize sample_parse "ns3" 53 sample_query OptUndefined
         env_send_error
  = mkRun [ELookup "ns3"; ESerialize; ESetTimeout 3000; EUdpCreate 4;
           EUdpSend [0; 7; 0; 0] 53 "192.0.2.3"; EClearTimeout; EUdpClose]
          (Failed "EHOSTUNREACH"%string).
Proof.
  apply (udp_send_error_rejects
           sample_serialize sample_parse "ns3" 53 sample_query OptUndefined
           env_send_error "192.0.2.3" 4 [] [] "EHOSTUNREACH"%string);
    reflexivity.
Defined.

Lemma fulfilled_response_matches_query_witness :
  id sample_answer = id sample_query
  /\ (tcp_connects (effects (client sample_serialize sample_parse "ns1" 53
                                    sample_query OptUndefined env_tcp_answer))
      = [] ->
      truncated sample_answer = false).
Proof.
  apply (fulfilled_response_matches_query
           sample_serialize sample_parse "ns1" 53 sample_query OptUndefined
           env_tcp_answer sample_answer).
  reflexivity.
Defined.

Lemma tcp_phase_rejects_only_by_timeout_witness :
  "Timeout"%string = "Timeout"%string
  /\ In ETcpEnd (effects (client sample_serialize sample_parse "ns1" 53
                                 sample_query OptUndefined env_tcp_reset)).
Proof.
  apply (tcp_phase_rejects_only_by_timeout
           sample_serialize sample_parse "ns1" 53 sample_query OptUndefined
           env_tcp_reset "Timeout"%string).
  - reflexivity.
  - vm_compute. discriminate.
Defined.

Lemma truncated_exchange_returns_tcp_answer_witness :
  client sample_serialize sample_parse "ns1" 53 sample_query OptUndefined
         env_tcp_answer
  = mkRun [ELookup "ns1"; ESerialize; ESetTimeout 3000; EUdpCreate 4;
           EUdpSend [0; 7; 0; 0] 53 "192.0.2.1"; EClearTimeout; EUdpClose;
           ETcpConnect 53 "192.0.2.1"; ESetTimeout 3000; ESerialize;
           ETcpWrite [0; 4]; ETcpWrite [0; 7; 0; 0]; EClearTimeout]
          (Fulfilled sample_answer).
Proof.
  apply (truncated_exchange_returns_tcp_answer
           sample_serialize sample_parse "ns1" 53 sample_query OptUndefined
           env_tcp_answer "192.0.2.1" 4 sample_truncated
           [EClearTimeout; EUdpClose]
           (sample_serialize sample_answer)
           [[0]; 6 :: sample_serialize sample_answer] [] sample_answer);
    try reflexivity.
  vm_compute. discriminate.
Defined.

Lemma fulfilled_exchange_leaves_no_timer_witness :
  count_effect is_clear_timeout
               (effects (client sample_serialize sample_parse "ns1" 53 sample_query
                                OptUndefined env_tcp_answer))
  = count_effect is_set_timeout
                 (effects (client sample_serialize sample_parse "ns1" 53 sample_query
                                  OptUndefined env_tcp_answer)).
Proof.
  apply (fulfilled_exchange_leaves_no_timer
           sample_serialize sample_parse "ns1" 53 sample_query OptUndefined
           env_tcp_answer sample_answer).
  reflexivity.
Defined.

Lemma udp_socket_closed_when_settled_witness :
  udp_left_open (effects (client sample_serialize sample_parse "ns2" 53 sample_query
                                 OptUndefined env_silent))
  = false.
Proof.
  apply (udp_socket_closed_when_settled
           sample_serialize sample_parse "ns2" 53 sample_query OptUndefined
           env_silent);
    reflexivity.
Defined.

Lemma first_answering_server_wins_witness :
  map call_host (calls (forward sample_serialize sample_parse
                                (ServerList ["a"; "b"; "c"]%string)
                                sample_query sample_response None envs_third_answers))
  = ["a"; "b"]%string ++ ["c"%string]
  /\ next_calls (forward sample_serialize sample_parse
                         (ServerList ["a"; "b"; "c"]%string)
                         sample_query sample_response None envs_third_answers)
     = [None]
  /\ rcode (res_packet (forward sample_serialize sample_parse
                                (ServerList ["a"; "b"; "c"]%string)
                                sample_query sample_response None envs_third_answers))
     = rcode sample_answer
  /\ answer (res_packet (forward sample_serialize sample_parse
                                 (ServerList ["a"; "b"; "c"]%string)
                                 sample_query sample_response None envs_third_answers))
     = answer sample_response ++ answer sample_answer
  /\ authority (res_packet (forward sample_serialize sample_parse
                                    (ServerList ["a"; "b"; "c"]%string)
                                    sample_query sample_response None envs_third_answers))
     = authority sample_response ++ authority sample_answer
  /\ additional (res_packet (forward sample_serialize sample_parse
                                     (ServerList ["a"; "b"; "c"]%string)
                                     sample_query sample_response None envs_third_answers))
     = additional sample_response ++ additional sample_answer.
Proof.
  apply (first_answering_server_wins
           sample_serialize sample_parse (ServerList ["a"; "b"; "c"]%string)
           sample_query sample_response envs_third_answers
           ["a"; "b"]%string [] "c"%string sample_answer).
  - reflexivity.
  - intros [|[|[|i]]] host H; cbn in H; try discriminate.
    + exists "ENOTFOUND"%string. injection H as <-. reflexivity.
    + exists "Timeout"%string. injection H as <-. reflexivity.
  - reflexivity.
Defined.

Lemma error_continuation_only_on_exhaustion_witness :
  "No more servers to try"%string = "No more servers to try"%string
  /\ next_calls (forward sample_serialize sample_parse (ServerList ["a"; "b"]%string)
                         sample_query sample_response None envs_all_fail)
     = [Some "No more servers to try"%string]
  /\ res_packet (forward sample_serialize sample_parse (ServerList ["a"; "b"]%string)
                         sample_query sample_response None envs_all_fail)
     = sample_response
  /\ map call_host (calls (forward sample_serialize sample_parse
                                   (ServerList ["a"; "b"]%string)
                                   sample_query sample_response None envs_all_fail))
     = server_list (ServerList ["a"; "b"]%string)
  /\ Forall (fun c => exists e', outcome (call_run c) = Failed e')
            (calls (forward sample_serialize sample_parse
                            (ServerList ["a"; "b"]%string)
                            sample_query sample_response None envs_all_fail)).
Proof.
  apply (error_continuation_only_on_exhaustion
           sample_serialize sample_parse (ServerList ["a"; "b"]%string)
           sample_query sample_response envs_all_fail
           "No more servers to try"%string).
  left. reflexivity.
Defined.

Lemma tcp_connect_error_rejects_witness :
  client sample_serialize sample_parse "ns1" 53 sample_query OptUndefined
         env_tcp_refused
  = mkRun [ELookup "ns1"; ESerialize; ESetTimeout 3000; EUdpCreate 4;
           EUdpSend [0; 7; 0; 0] 53 "192.0.2.1"; EClearTimeout; EUdpClose;
           ETcpConnect 53 "192.0.2.1"; ETcpEnd]
          (Failed "ECONNREFUSED"%string).
Proof.
  apply (tcp_connect_error_rejects
           sample_serialize sample_parse "ns1" 53 sample_query OptUndefined
           env_tcp_refused
           "192.0.2.1" 4 sample_truncated [EClearTimeout; EUdpClose]
           "ECONNREFUSED"%string []);
    reflexivity.
Defined.

(** ** A frame that does not decode *)

Section DecodeFailure.

Context {P : Type}.
Variable parse : bytes -> Error + P.

Lemma slice_app_within (start stop : nat) (buf more : bytes) :
  (stop <= List.length buf)%nat ->
  slice start stop (buf ++ more) = slice start stop buf.
Proof.
  intros Hstop. unfold slice.
  rewrite skipn_app, firstn_app, length_skipn.
  replace (stop - start - (List.length buf - start))%nat with 0%nat by lia.
  cbn [firstn]. apply app_nil_r.
Qed.

Lemma readUInt16BE_app (buf more : bytes) :
  2 <= blength buf -> readUInt16BE (buf ++ more) = readUInt16BE buf.
Proof.
  intros H. destruct buf as [|hi [|lo buf]]; unfold blength in H; cbn in H; try lia.
  reflexivity.
Qed.

(** The reassembler does not step over a frame that failed to decode: the
    buffer and the length are kept, so every later read runs the parser on
    the same bytes and fails in the same way. *)
Theorem decode_failure_is_permanent
        (st st' : FrameState) (b : bytes) (e : Error) :
  on_data parse st b = (st', ParseFailed e) ->
  forall more : bytes,
    on_data parse st' more
    = (mkFrameState (Some (buffered st' ++ more)) (packetLength st'),
       ParseFailed e).
Proof.
  unfold on_data at 1. rewrite on_data_buffer.
  set (buf := buffered st ++ b).
  destruct (packetLength_falsy (packetLength st) && (blength buf <? 2)) eqn:Hshort;
    [discriminate|].
  set (len := if packetLength_falsy (packetLength st)
              then readUInt16BE buf
              else match packetLength st with Some n => n | None => 0 end).
  destruct (blength buf >=? len + 2) eqn:Hge; [|discriminate].
  destruct (parse (slice 2 (Z.to_nat (len + 2)) buf)) as [e0|p] eqn:Hparse;
    [|discriminate].
  intros H. injection H as <- <-. intros more.
  rewrite Z.geb_leb in Hge. apply Z.leb_le in Hge.
  pose proof (blength_nonneg more) as Hmore.
  assert (Hzero : len = 0 -> 2 <= blength buf /\ readUInt16BE buf = 0).
  { intros Hz. split; [lia|]. subst len.
    destruct (packetLength st) as [n|]; cbn [packetLength_falsy] in *.
    - destruct (n =? 0) eqn:Hn; [exact Hz|].
      apply Z.eqb_neq in Hn. contradiction.
    - exact Hz. }
  unfold on_data. cbn [buffer packetLength buffered packetLength_falsy].
  assert (Hlen' : (if len =? 0 then readUInt16BE (buf ++ more) else len) = len).
  { destruct (len =? 0) eqn:Hz; [|reflexivity].
    apply Z.eqb_eq in Hz. destruct (Hzero Hz) as [H2 Hr].
    rewrite readUInt16BE_app by exact H2. lia. }
  assert (Hfirst : (len =? 0) && (blength (buf ++ more) <? 2) = false).
  { destruct (len =? 0) eqn:Hz; [|reflexivity].
    apply Z.eqb_eq in Hz. destruct (Hzero Hz) as [H2 _].
    cbn [andb]. apply Z.ltb_ge. rewrite blength_app. lia. }
  rewrite Hfirst, Hlen'.
  assert (Hge' : (blength (buf ++ more) >=? len + 2) = true)
    by (rewrite Z.geb_leb; apply Z.leb_le; rewrite blength_app; lia).
  rewrite Hge'.
  rewrite slice_app_within by (unfold blength in Hge; lia).
  rewrite Hparse. reflexivity.
Qed.

End DecodeFailure.

Lemma decode_failure_is_permanent_witness :
  on_data sample_parse (mkFrameState (Some [0; 2; 1; 2]) (Some 2)) [0; 7]
  = (mkFrameState (Some ([0; 2; 1; 2] ++ [0; 7])) (Some 2),
     ParseFailed "Header too short"%string).
Proof.
  apply (decode_failure_is_permanent sample_parse frame_init
           (mkFrameState (Some [0; 2; 1; 2]) (Some 2)) [0; 2; 1; 2]
           "Header too short"%string).
  reflexivity.
Defined.

Lemma unknown_family_rejects_before_socket_witness :
  client sample_serialize sample_parse "ns4" 53 sample_query OptUndefined
         env_unclassified
  = mkRun [ELookup "ns4"; ESerialize; ESetTimeout 3000]
          (Failed "ERR_SOCKET_BAD_TYPE"%string).
Proof.
  apply (unknown_family_rejects_before_socket
           sample_serialize sample_parse "ns4" 53 sample_query OptUndefined
           env_unclassified "203.0.113.7" 0);
    [reflexivity | discriminate | discriminate].
Defined.

Lemma bad_port_rejects_with_socket_open_witness :
  client sample_serialize sample_parse "ns2" 65536 sample_query OptUndefined
         env_silent
  = mkRun [ELookup "ns2"; ESerialize; ESetTimeout 3000; EUdpCreate 4]
          (Failed "ERR_SOCKET_BAD_PORT"%string)
  /\ udp_left_open (effects (client sample_serialize sample_parse "ns2" 65536
                                    sample_query OptUndefined env_silent))
     = true.
Proof.
  apply (bad_port_rejects_with_socket_open
           sample_serialize sample_parse "ns2" 65536 sample_query OptUndefined
           env_silent "192.0.2.2" 4).
  - reflexivity.
  - left. reflexivity.
  - right. reflexivity.
Defined.
